(** * doc-query-engine: the per-document index lifecycle of [DocumentQAService]

    A shallow embedding of [src/service/document_qa_service.py] and
    [src/service/scheduler_service.py]:

    - the sentence chunker written inline in [generate_answer_by_id];
    - the index directory, the metadata file and the operations on them
      ([load_metadata], [save_metadata], [save_faiss_index],
      [load_faiss_index], [clean_old_indexes]);
    - request validation, the answer operation and the HTTP endpoint;
    - the scheduler's [cleanup_job].

    Python exceptions are values of [exn]; an operation is a function from
    the state of the world to a result and the state it leaves behind, so
    that the effects made before an exception are kept. *)

From stdpp Require Import gmap strings list fin_maps.
From Stdlib Require Import ZArith Lia.

Local Open Scope Z_scope.
Local Open Scope nat_scope.

(** ** Python strings *)

(** [" ".join(chunk)] *)
Definition join (chunk : list string) : string := String.concat " " chunk.

(** The characters of the sentences of a chunk, separators left out. *)
Definition sentence_chars (chunk : list string) : nat :=
  foldr (λ sentence n, String.length sentence + n) 0 chunk.

(** [c * n] for a one-character string. *)
Fixpoint str_repeat (c : Ascii.ascii) (n : nat) : string :=
  match n with
  | O => EmptyString
  | S n' => String c (str_repeat c n')
  end.

(** ** The chunker

    [generate_answer_by_id], lines 73-81:
<<
    chunks, chunk, length = [], [], 0
    for sentence in sentences:
        if length + len(sentence) > 1600:
            chunks.append(" ".join(chunk))
            chunk, length = [], 0
        chunk.append(sentence)
        length += len(sentence)
    if chunk:
        chunks.append(" ".join(chunk))
>>
    The literal 1600 is the argument [max_chunk_chars] below. *)
Module Chunker.

Record state := State {
  chunks : list string;
  chunk : list string;
  length : nat
}.

Definition init : state := {| chunks := []; chunk := []; length := 0 |}.

(** The flush guarded by [if length + len(sentence) > max_chunk_chars]. *)
Definition flush (max_chunk_chars : nat) (st : state) (sentence : string) : state :=
  if max_chunk_chars <? length st + String.length sentence
  then {| chunks := chunks st ++ [join (chunk st)]; chunk := []; length := 0 |}
  else st.

(** One iteration of the [for] loop. *)
Definition step (max_chunk_chars : nat) (st : state) (sentence : string) : state :=
  let st' := flush max_chunk_chars st sentence in
  {| chunks := chunks st';
     chunk := chunk st' ++ [sentence];
     length := length st' + String.length sentence |}.

Definition loop (max_chunk_chars : nat) (sentences : list string) : state :=
  foldl (step max_chunk_chars) init sentences.

(** [if chunk: chunks.append(" ".join(chunk))] *)
Definition finish (st : state) : list string :=
  match chunk st with
  | [] => chunks st
  | _ :: _ => chunks st ++ [join (chunk st)]
  end.

Definition chunk_sentences_with (max_chunk_chars : nat) (sentences : list string)
  : list string :=
  finish (loop max_chunk_chars sentences).

(** The same loop, recording for every emitted chunk the list of sentences
    that was joined instead of the joined string. *)
Record gstate := GState {
  groups : list (list string);
  gchunk : list string;
  glength : nat
}.

Definition ginit : gstate := {| groups := []; gchunk := []; glength := 0 |}.

Definition gflush (max_chunk_chars : nat) (st : gstate) (sentence : string) : gstate :=
  if max_chunk_chars <? glength st + String.length sentence
  then {| groups := groups st ++ [gchunk st]; gchunk := []; glength := 0 |}
  else st.

Definition gstep (max_chunk_chars : nat) (st : gstate) (sentence : string) : gstate :=
  let st' := gflush max_chunk_chars st sentence in
  {| groups := groups st';
     gchunk := gchunk st' ++ [sentence];
     glength := glength st' + String.length sentence |}.

Definition gloop (max_chunk_chars : nat) (sentences : list string) : gstate :=
  foldl (gstep max_chunk_chars) ginit sentences.

Definition gfinish (st : gstate) : list (list string) :=
  match gchunk st with
  | [] => groups st
  | _ :: _ => groups st ++ [gchunk st]
  end.

Definition chunk_groups_with (max_chunk_chars : nat) (sentences : list string)
  : list (list string) :=
  gfinish (gloop max_chunk_chars sentences).

(** The threshold written in the source. *)
Definition max_chunk_chars : nat := 1600.

Definition chunk_sentences : list string → list string :=
  chunk_sentences_with max_chunk_chars.

Definition chunk_groups : list string → list (list string) :=
  chunk_groups_with max_chunk_chars.

(** A chunk that is one sentence longer than the threshold. *)
Definition one_sentence_overflow (T : nat) (g : list string) : Prop :=
  ∃ s, g = [s] ∧ T < String.length s.

(** The string loop is the grouping loop with every group joined. *)
Definition related (st : state) (gst : gstate) : Prop :=
  chunks st = join <$> groups gst ∧ chunk st = gchunk gst ∧
  length st = glength gst.

(** What the grouping loop maintains after reading [sentences]. *)
Record invariant (T : nat) (sentences : list string) (gst : gstate) : Prop := {
  inv_consumed : concat (groups gst) ++ gchunk gst = sentences;
  inv_length : glength gst = sentence_chars (gchunk gst);
  inv_closed :
    Forall (λ g, sentence_chars g ≤ T ∨ one_sentence_overflow T g) (groups gst);
  inv_open : sentence_chars (gchunk gst) ≤ T ∨ one_sentence_overflow T (gchunk gst)
}.

End Chunker.

(** ** Exceptions, results and the state of the world *)

(** The exceptions the modelled code raises or lets through. *)
Inductive exn :=
  | HTTPException (status_code : Z) (message : string)
      (* raise_http_exception(status_code, message) *)
  | OSError (document_id : string)
      (* os.remove(index_path) *)
  | FileNotFoundError
      (* open(METADATA_FILE, "w") when INDEX_DIR does not exist *)
  | MetadataReadError
      (* open(METADATA_FILE, "r") or json.load *)
  | MetadataWriteError
      (* open(METADATA_FILE, "w") or json.dump *)
  | IndexWriteError
      (* vectorstore.save_local *)
  | CorruptIndexError
      (* FAISS.load_local on a file that does not deserialize *)
  | UpstreamModelError.
      (* FAISS.from_documents, rag_chain.invoke *)

Inductive result (A : Type) :=
  | Ok (a : A)
  | Raise (e : exn).
Arguments Ok {A} a.
Arguments Raise {A} e.

(** One value of the metadata dictionary, [{"last_access": <iso timestamp>}].
    A timestamp is the number of microseconds (the resolution of [datetime])
    since an arbitrary origin; [isoformat] and [fromisoformat] are inverse to
    each other on the values the service writes. *)
Record info := Info { last_access : Z }.

(** [timedelta(hours=h)] *)
Definition timedelta_hours (h : Z) : Z := (h * 3600000000)%Z.

(** The [documents] table, columns [id] and [content]. *)
Record Document := { id : string; content : string }.

(** [LangchainDoc(page_content=chunk, metadata={"document_id": doc.id})] *)
Record LangchainDoc := { page_content : string; metadata_document_id : string }.

(** Modelled from the spec: [src/models/request/qa_request.py] is not part of
    the sources at hand; the request carries the two strings [question] and
    [document_id] (the tests build it with either of them empty). *)
Record QARequest := { question : string; document_id : string }.

(** A record written by [logger.error] or [logger.info]: the literal text and
    the values formatted into it. *)
Inductive level := ERROR | INFO.
Record log_record := { log_level : level; log_text : string; log_args : list string }.

(** [JSONResponse(status_code=..., content={..., "result": ..., ...})] *)
Record JSONResponse := { response_status : Z; response_result : string }.

Section Service.

(** The FAISS vector store and its serialized form are opaque. *)
Context {vectorstore blob : Type}.

(** The collaborators of the service, the failures of the operating system
    and the configuration read from [config.py]. *)
Record environment := {
  INACTIVITY_THRESHOLD_HOURS : Z;
  (* [[sent.text.strip() for sent in nlp(content).sents]] *)
  sentences_of : string → list string;
  (* [FAISS.from_documents(langchain_docs, embedding_model)] *)
  from_documents : list LangchainDoc → result vectorstore;
  (* what [vectorstore.save_local] writes, or its failure *)
  save_local : vectorstore → result blob;
  (* what [FAISS.load_local] reads back, or its failure *)
  load_local : blob → result vectorstore;
  (* [RetrievalQA.from_chain_type(...).invoke(question)] *)
  rag_chain_invoke : vectorstore → string → result string;
  (* [os.remove(index_path)] raises for this document *)
  remove_fails : string → bool;
  (* reading, writing the metadata file raises *)
  metadata_read_fails : bool;
  metadata_write_fails : bool
}.

(** The state the service reads and writes. The file
    [INDEX_DIR / f"{document_id}.faiss"] is the entry of [index_files] at
    [document_id]. *)
Record world := World {
  documents : gmap string Document;
  index_dir : bool;                           (* INDEX_DIR exists *)
  index_files : gmap string blob;
  metadata_file : option (gmap string info);  (* METADATA_FILE, if it exists *)
  clock : Z;                                  (* what datetime.now() reads *)
  log : list log_record
}.

Definition M (A : Type) : Type := world → result A * world.

(** [M] with stdpp's monad notations: [x ← m; k] runs [k] only when [m]
    returns, and hands on the exception and the state reached otherwise. *)
#[global] Instance M_ret : MRet M := λ A a w, (Ok a, w).
#[global] Instance M_bind : MBind M := λ A B k m w,
  match m w with
  | (Ok a, w') => k a w'
  | (Raise e, w') => (Raise e, w')
  end.

Definition raise {A} (e : exn) : M A := λ w, (Raise e, w).
Definition lift {A} (r : result A) : M A := λ w, (r, w).

Variable E : environment.

(** *** Primitive effects *)

(** [datetime.now()]; the clock stands still while an operation runs. *)
Definition datetime_now : M Z := λ w, (Ok (clock w), w).

Definition logger (l : level) (text : string) (args : list string) : M unit := λ w,
  (Ok tt,
   World (documents w) (index_dir w) (index_files w) (metadata_file w) (clock w)
     (log w ++ [{| log_level := l; log_text := text; log_args := args |}])).

(** [raise_http_exception] of [error_utils.py] *)
Definition raise_http_exception {A} (status_code : Z) (message : string) : M A :=
  raise (HTTPException status_code message).

(** [INDEX_DIR.mkdir(parents=True, exist_ok=True)] *)
Definition mkdir_index_dir : M unit := λ w,
  (Ok tt,
   World (documents w) true (index_files w) (metadata_file w) (clock w) (log w)).

(** [index_path.exists()] *)
Definition index_path_exists (document_id : string) : M bool := λ w,
  (Ok (bool_decide (is_Some (index_files w !! document_id))), w).

(** [vectorstore.save_local(str(index_path))] *)
Definition vectorstore_save_local (v : vectorstore) (document_id : string) : M unit := λ w,
  match save_local E v with
  | Ok b =>
      (Ok tt,
       World (documents w) (index_dir w) (<[document_id := b]> (index_files w))
         (metadata_file w) (clock w) (log w))
  | Raise e => (Raise e, w)
  end.

(** [FAISS.load_local(str(index_path), embedding_model, ...)] *)
Definition FAISS_load_local (document_id : string) : M vectorstore := λ w,
  match index_files w !! document_id with
  | Some b => (load_local E b, w)
  | None => (Raise CorruptIndexError, w)
  end.

(** [os.remove(index_path)] *)
Definition os_remove (document_id : string) : M unit := λ w,
  if remove_fails E document_id then (Raise (OSError document_id), w)
  else
    (Ok tt,
     World (documents w) (index_dir w) (delete document_id (index_files w))
       (metadata_file w) (clock w) (log w)).

(** *** [DocumentQAService] *)

Definition load_metadata : M (gmap string info) := λ w,
  match metadata_file w with
  | Some m => if metadata_read_fails E then (Raise MetadataReadError, w) else (Ok m, w)
  | None => (Ok ∅, w)
  end.

(** [open] fails when [INDEX_DIR] is missing; a write that fails is taken to
    leave the file as it was. *)
Definition save_metadata (metadata : gmap string info) : M unit := λ w,
  if negb (index_dir w) then (Raise FileNotFoundError, w)
  else if metadata_write_fails E then (Raise MetadataWriteError, w)
  else
    (Ok tt,
     World (documents w) (index_dir w) (index_files w) (Some metadata) (clock w) (log w)).

Definition validate_qa_request (qa_request : QARequest) : M unit :=
  (if bool_decide (question qa_request = "")
   then logger ERROR "Question cannot be empty" [] ;;
        raise_http_exception 400 "Question cannot be empty"
   else mret tt) ;;
  (if bool_decide (document_id qa_request = "")
   then logger ERROR "Document ID cannot be empty" [] ;;
        raise_http_exception 400 "Document ID is required"
   else mret tt).

Definition save_faiss_index (v : vectorstore) (document_id : string) : M unit :=
  mkdir_index_dir ;;
  vectorstore_save_local v document_id ;;
  metadata ← load_metadata;
  now ← datetime_now;
  save_metadata (<[document_id := Info now]> metadata).

Definition load_faiss_index (document_id : string) : M (option vectorstore) :=
  present ← index_path_exists document_id;
  if negb present then mret None
  else
    metadata ← load_metadata;
    now ← datetime_now;
    save_metadata (<[document_id := Info now]> metadata) ;;
    v ← FAISS_load_local document_id;
    mret (Some v).

(** [now - last_access > timedelta(hours=INACTIVITY_THRESHOLD_HOURS)] *)
Definition stale (now : Z) (i : info) : bool :=
  (timedelta_hours (INACTIVITY_THRESHOLD_HOURS E) <? now - last_access i)%Z.

(** The body of [for document_id, info in metadata.items()]. The items are
    those of [map_to_list]: every entry once, in the order of the map, where
    Python takes the order of insertion; the order decides only which files
    are already removed when [os.remove] raises. *)
Fixpoint clean_loop (now : Z) (items : list (string * info))
    (updated_metadata : gmap string info) : M (gmap string info) :=
  match items with
  | [] => mret updated_metadata
  | (document_id, i) :: rest =>
      if stale now i then
        present ← index_path_exists document_id;
        (if (present : bool) then os_remove document_id else mret tt) ;;
        clean_loop now rest updated_metadata
      else clean_loop now rest (<[document_id := i]> updated_metadata)
  end.

Definition clean_old_indexes : M (gmap string info) :=
  now ← datetime_now;
  metadata ← load_metadata;
  updated_metadata ← clean_loop now (map_to_list metadata) ∅;
  save_metadata updated_metadata ;;
  mret updated_metadata.

Definition generate_answer_by_id (question document_id : string) : M string :=
  doc ← (λ w, (Ok (documents w !! document_id), w));
  match doc with
  | None => mret ("No document found with id " +:+ document_id)
  | Some doc =>
      let sentences := sentences_of E (content doc) in
      let chunks := Chunker.chunk_sentences sentences in
      let langchain_docs :=
        map (λ chunk, {| page_content := chunk; metadata_document_id := id doc |})
          chunks in
      loaded ← load_faiss_index document_id;
      v ← match loaded with
          | Some v => mret v
          | None =>
              v ← lift (from_documents E langchain_docs);
              save_faiss_index v document_id ;;
              mret v
          end;
      lift (rag_chain_invoke E v question)
  end.

(** [ask_question] of [document_qa_endpoint.py], once the caller is
    authenticated. *)
Definition ask_question (payload : QARequest) : M JSONResponse :=
  validate_qa_request payload ;;
  answer ← generate_answer_by_id (question payload) (document_id payload);
  mret {| response_status := 200; response_result := answer |}.

(** [cleanup_job] of [scheduler_service.py] *)
Definition cleanup_job : M unit :=
  cleaned ← clean_old_indexes;
  logger INFO "FAISS index cleanup done. Remaining indexes: "
    (map_to_list cleaned).*1.

(** *** The specification's vocabulary *)

(** The metadata map, as [load_metadata] reads it when reading works. *)
Definition metadata_of (w : world) : gmap string info :=
  default ∅ (metadata_file w).

(** A metadata entry exists exactly for the documents with an index file. *)
Definition consistent (w : world) : Prop :=
  ∀ document_id,
    is_Some (metadata_of w !! document_id) ↔ is_Some (index_files w !! document_id).

(** The identifiers a sweep at time [now] evicts. *)
Definition evicted (now : Z) (metadata : gmap string info) : gset string :=
  dom (filter (λ kv, stale now kv.2 = true) metadata).

(** The entries a sweep at time [now] keeps. *)
Definition retained (now : Z) (metadata : gmap string info) : gmap string info :=
  filter (λ kv, stale now kv.2 = false) metadata.

(** The world [w] when the clock reads [now]. *)
Definition at_time (now : Z) (w : world) : world :=
  World (documents w) (index_dir w) (index_files w) (metadata_file w) now (log w).

(** [w'] differs from [w] in the index files at most. *)
Definition same_but_index_files (w w' : world) : Prop :=
  documents w' = documents w ∧ index_dir w' = index_dir w ∧
  metadata_file w' = metadata_file w ∧ clock w' = clock w ∧ log w' = log w.

End Service.

(** ** What the libraries do with the values the service hands them *)

(** [vectorstore.save_local(folder_path)] of the FAISS vector store creates
    [folder_path] as a directory and writes [index.faiss] and [index.pkl]
    into it: every path [INDEX_DIR / f"{document_id}.faiss"] the service
    creates is a directory. [os.remove] raises on a directory
    ([IsADirectoryError] or [PermissionError], both [OSError]), whatever the
    document. *)
Definition index_paths_are_directories {vectorstore blob : Type}
    (E : @environment vectorstore blob) : Prop :=
  ∀ document_id, remove_fails E document_id = true.

(** [timedelta(hours=h)] is defined for the [h] between [timedelta.min] and
    [timedelta.max], a magnitude of at most 999999999 days, and raises
    [OverflowError] for the others. *)
Definition timedelta_hours_defined (h : Z) : Prop :=
  (-999999999 * 24 ≤ h ≤ 999999999 * 24 + 23)%Z.

(** ** Concrete scenarios

    A vector store is the list of documents it was built from; an index file
    holds either such a list or bytes that do not deserialize. *)
Module Scenario.

Definition hour : Z := 3600000000.

Definition env (rm : string → bool)
  : @environment (list LangchainDoc) (option (list LangchainDoc)) :=
  {| INACTIVITY_THRESHOLD_HOURS := 1;
     sentences_of := λ text, [text];
     from_documents := λ docs, Ok docs;
     save_local := λ v, Ok (Some v);
     load_local := λ b,
       match b with Some v => Ok v | None => Raise CorruptIndexError end;
     rag_chain_invoke := λ v question, Ok question;
     remove_fails := rm;
     metadata_read_fails := false;
     metadata_write_fails := false |}.

(** No operation of the operating system fails. *)
Definition quiet := env (λ _, false).

(** [os.remove] raises for every path. *)
Definition read_only := env (λ _, true).

(** Metadata [{"d1": t0, "d2": t1}] with an index file for each, at
    [now = t0 + 2h] and [t1 = now - 30min]. *)
Definition two_indexes : @world (option (list LangchainDoc)) :=
  {| documents := ∅;
     index_dir := true;
     index_files := <["d1" := Some []]> (<["d2" := Some []]> ∅);
     metadata_file := Some (<["d1" := Info 0]> (<["d2" := Info (3 * hour / 2)]> ∅));
     clock := 2 * hour;
     log := [] |}.

Definition two_indexes_swept : @world (option (list LangchainDoc)) :=
  {| documents := ∅;
     index_dir := true;
     index_files := <["d2" := Some []]> ∅;
     metadata_file := Some (<["d2" := Info (3 * hour / 2)]> ∅);
     clock := 2 * hour;
     log := [] |}.

(** The state after the first index, of "d1", was saved on a [fresh]
    installation. *)
Definition first_index_saved : @world (option (list LangchainDoc)) :=
  {| documents := ∅;
     index_dir := true;
     index_files := <["d1" := Some []]> ∅;
     metadata_file := Some (<["d1" := Info (2 * hour)]> ∅);
     clock := 2 * hour;
     log := [] |}.

(** The index file of "d1" does not deserialize; its last access is old. *)
Definition corrupt_index : @world (option (list LangchainDoc)) :=
  {| documents := ∅;
     index_dir := true;
     index_files := <["d1" := None]> ∅;
     metadata_file := Some (<["d1" := Info 0]> ∅);
     clock := hour / 2;
     log := [] |}.

Definition corrupt_index_touched : @world (option (list LangchainDoc)) :=
  {| documents := ∅;
     index_dir := true;
     index_files := <["d1" := None]> ∅;
     metadata_file := Some (<["d1" := Info (hour / 2)]> ∅);
     clock := hour / 2;
     log := [] |}.

Definition long_sentence : string := str_repeat (Ascii.ascii_of_nat 97) 1601.
Definition half_a : string := str_repeat (Ascii.ascii_of_nat 97) 800.
Definition half_b : string := str_repeat (Ascii.ascii_of_nat 98) 800.

(** What the sweep of [two_indexes] returns. *)
Definition two_indexes_kept : gmap string info :=
  <["d2" := Info (3 * hour / 2)]> ∅.

(** A fresh installation: no index directory yet. *)
Definition fresh : @world (option (list LangchainDoc)) :=
  {| documents := ∅;
     index_dir := false;
     index_files := ∅;
     metadata_file := None;
     clock := 2 * hour;
     log := [] |}.

(** One stored document that has no index yet. *)
Definition with_document : @world (option (list LangchainDoc)) :=
  {| documents := <["doc-1" := {| id := "doc-1"; content := "Hello." |}]> ∅;
     index_dir := false;
     index_files := ∅;
     metadata_file := None;
     clock := 2 * hour;
     log := [] |}.

Definition with_document_indexed : @world (option (list LangchainDoc)) :=
  {| documents := <["doc-1" := {| id := "doc-1"; content := "Hello." |}]> ∅;
     index_dir := true;
     index_files :=
       <["doc-1" :=
           Some [{| page_content := "Hello."; metadata_document_id := "doc-1" |}]]> ∅;
     metadata_file := Some (<["doc-1" := Info (2 * hour)]> ∅);
     clock := 2 * hour;
     log := [] |}.

Definition empty_question : QARequest :=
  {| question := ""; document_id := "doc-1" |}.

End Scenario.

(** ** More scenarios *)
Module MoreScenarios.
Import Scenario.

(** [FAISS.from_documents] fails. *)
Definition no_embeddings : @environment (list LangchainDoc) (option (list LangchainDoc)) :=
  {| INACTIVITY_THRESHOLD_HOURS := 1;
     sentences_of := λ text, [text];
     from_documents := λ docs, Raise UpstreamModelError;
     save_local := λ v, Ok (Some v);
     load_local := λ b,
       match b with Some v => Ok v | None => Raise CorruptIndexError end;
     rag_chain_invoke := λ v question, Ok question;
     remove_fails := λ _, false;
     metadata_read_fails := false;
     metadata_write_fails := false |}.

(** The metadata file cannot be read. *)
Definition unreadable : @environment (list LangchainDoc) (option (list LangchainDoc)) :=
  {| INACTIVITY_THRESHOLD_HOURS := 1;
     sentences_of := λ text, [text];
     from_documents := λ docs, Ok docs;
     save_local := λ v, Ok (Some v);
     load_local := λ b,
       match b with Some v => Ok v | None => Raise CorruptIndexError end;
     rag_chain_invoke := λ v question, Ok question;
     remove_fails := λ _, false;
     metadata_read_fails := true;
     metadata_write_fails := false |}.

(** [two_indexes] after an index for "d3" was saved. *)
Definition two_indexes_saved : @world (option (list LangchainDoc)) :=
  {| documents := ∅;
     index_dir := true;
     index_files := <["d3" := Some []]> (<["d1" := Some []]> (<["d2" := Some []]> ∅));
     metadata_file :=
       Some (<["d3" := Info (2 * hour)]>
               (<["d1" := Info 0]> (<["d2" := Info (3 * hour / 2)]> ∅)));
     clock := 2 * hour;
     log := [] |}.

(** [two_indexes_saved] swept one hour later: only "d3" is left. *)
Definition two_indexes_saved_swept : @world (option (list LangchainDoc)) :=
  {| documents := ∅;
     index_dir := true;
     index_files := <["d3" := Some []]> ∅;
     metadata_file := Some (<["d3" := Info (2 * hour)]> ∅);
     clock := 3 * hour;
     log := [] |}.

(** [two_indexes] after the failed save of an index for "d3". *)
Definition two_indexes_torn : @world (option (list LangchainDoc)) :=
  {| documents := ∅;
     index_dir := true;
     index_files := <["d3" := Some []]> (<["d1" := Some []]> (<["d2" := Some []]> ∅));
     metadata_file := Some (<["d1" := Info 0]> (<["d2" := Info (3 * hour / 2)]> ∅));
     clock := 2 * hour;
     log := [] |}.

Definition hello_doc : Document := {| id := "doc-1"; content := "Hello." |}.
Definition hello_chunk : LangchainDoc :=
  {| page_content := "Hello."; metadata_document_id := "doc-1" |}.

(** The document was edited after its index was built. *)
Definition edited_doc : Document := {| id := "doc-1"; content := "Changed." |}.
Definition with_old_index : @world (option (list LangchainDoc)) :=
  {| documents := <["doc-1" := edited_doc]> ∅;
     index_dir := true;
     index_files := <["doc-1" := Some [hello_chunk]]> ∅;
     metadata_file := Some (<["doc-1" := Info (2 * hour)]> ∅);
     clock := 5 * hour / 2;
     log := [] |}.
Definition with_old_index_used : @world (option (list LangchainDoc)) :=
  {| documents := <["doc-1" := edited_doc]> ∅;
     index_dir := true;
     index_files := <["doc-1" := Some [hello_chunk]]> ∅;
     metadata_file := Some (<["doc-1" := Info (5 * hour / 2)]> ∅);
     clock := 5 * hour / 2;
     log := [] |}.

Definition ghost_request : QARequest :=
  {| question := "What is this about?"; document_id := "ghost" |}.

End MoreScenarios.

(** ** The shape of the chunker's output *)
Module ChunkerShape.
Import Chunker.

(** A group is closed only when the sentence that opens the next one did not
    fit: the characters of the group and of that sentence exceed [T]. *)
Definition greedy (T : nat) (gs : list (list string)) : Prop :=
  ∀ i g s g', gs !! i = Some g → gs !! S i = Some (s :: g') →
    T < sentence_chars g + String.length s.

(** Every group but the first holds a sentence. *)
Definition tail_nonempty (gs : list (list string)) : Prop :=
  ∀ i g, gs !! S i = Some g → g ≠ [].

(** The first group is empty only when the first sentence is longer than
    [T] (or nothing was read yet). *)
Definition head_empty_only_by_overflow (T : nat) (sentences : list string)
    (gs : list (list string)) : Prop :=
  gs !! 0 = Some [] →
  sentences = [] ∨ ∃ s rest, sentences = s :: rest ∧ T < String.length s.

(** What the grouping loop maintains about the closed groups followed by the
    open one. *)
Record shape (T : nat) (sentences : list string) (gst : gstate) : Prop := {
  shape_greedy : greedy T (groups gst ++ [gchunk gst]);
  shape_tail : tail_nonempty (groups gst ++ [gchunk gst]);
  shape_head : head_empty_only_by_overflow T sentences (groups gst ++ [gchunk gst]);
  shape_open : gchunk gst = [] → groups gst = [] ∧ sentences = []
}.

End ChunkerShape.

(** * Properties of the chunker *)

Lemma string_length_app (s1 s2 : string) :
  String.length (s1 +:+ s2) = String.length s1 + String.length s2.
Proof. induction s1 as [|c s1 IH]; simpl; [done | by rewrite IH]. Qed.

(** A joined chunk has the characters of its sentences and one separator
    between two neighbours. *)
Lemma join_length (g : list string) :
  String.length (join g) = sentence_chars g + (length g - 1).
Proof.
  unfold join. induction g as [|s g IH]; [done|].
  destruct g as [|s' g]; simpl in *; [lia|].
  rewrite !string_length_app, IH. simpl. lia.
Qed.

Lemma sentence_chars_app (g1 g2 : list string) :
  sentence_chars (g1 ++ g2) = sentence_chars g1 + sentence_chars g2.
Proof. unfold sentence_chars. induction g1; simpl; lia. Qed.

Module ChunkerFacts.
Import Chunker.

Lemma step_related T st gst sentence :
  related st gst → related (step T st sentence) (gstep T gst sentence).
Proof.
  intros (Hc & Hk & Hl). unfold related, step, gstep, flush, gflush.
  rewrite Hl. destruct (T <? glength gst + String.length sentence); simpl.
  - by rewrite Hc, Hk, fmap_app.
  - by rewrite Hc, Hk, Hl.
Qed.

Lemma loop_related T sentences : related (loop T sentences) (gloop T sentences).
Proof.
  unfold loop, gloop.
  induction sentences as [|s l IH] using rev_ind; [done|].
  rewrite !foldl_snoc. by apply step_related.
Qed.

Lemma chunk_sentences_groups T sentences :
  chunk_sentences_with T sentences = join <$> chunk_groups_with T sentences.
Proof.
  unfold chunk_sentences_with, chunk_groups_with, finish, gfinish.
  destruct (loop_related T sentences) as (Hc & Hk & _).
  rewrite Hc, Hk. destruct (gchunk _); [done|]. by rewrite fmap_app.
Qed.

Lemma gloop_invariant T sentences : invariant T sentences (gloop T sentences).
Proof.
  unfold gloop. induction sentences as [|s l IH] using rev_ind.
  - split; simpl; auto with lia.
  - rewrite foldl_snoc. destruct IH as [Hcons Hlen Hclosed Hopen].
    set (gst := foldl (gstep T) ginit l) in *.
    unfold gstep, gflush.
    destruct (T <? glength gst + String.length s) eqn:Hcmp; simpl.
    + split; simpl.
      * rewrite concat_app. simpl. by rewrite app_nil_r, Hcons.
      * unfold sentence_chars; simpl; lia.
      * apply Forall_app; split; [done | by constructor].
      * destruct (decide (String.length s ≤ T)) as [Hle|Hgt].
        -- left. unfold sentence_chars; simpl; lia.
        -- right. exists s. split; [done | lia].
    + apply Nat.ltb_ge in Hcmp. split; simpl.
      * by rewrite app_assoc, Hcons.
      * rewrite sentence_chars_app, Hlen.
        change (sentence_chars [s]) with (String.length s + 0). lia.
      * done.
      * left. rewrite sentence_chars_app, <- Hlen.
        change (sentence_chars [s]) with (String.length s + 0). lia.
Qed.

Lemma chunk_groups_concat T sentences :
  concat (chunk_groups_with T sentences) = sentences.
Proof.
  unfold chunk_groups_with, gfinish.
  destruct (gloop_invariant T sentences) as [Hcons _ _ _].
  destruct (gchunk (gloop T sentences)) eqn:Hk.
  - by rewrite app_nil_r in Hcons.
  - rewrite concat_app. simpl. by rewrite app_nil_r.
Qed.

Lemma chunk_groups_bounded T sentences :
  Forall (λ g, sentence_chars g ≤ T ∨ one_sentence_overflow T g)
    (chunk_groups_with T sentences).
Proof.
  unfold chunk_groups_with, gfinish.
  destruct (gloop_invariant T sentences) as [_ _ Hclosed Hopen].
  destruct (gchunk (gloop T sentences)) eqn:Hk; [done|].
  apply Forall_app. split; [done | by constructor].
Qed.

(** Later iterations only append to [chunks]. *)
Lemma foldl_step_chunks_prefix T sentences st :
  ∃ tl, chunks (foldl (step T) st sentences) = chunks st ++ tl.
Proof.
  revert st. induction sentences as [|s l IH]; intros st; simpl.
  - exists []. by rewrite app_nil_r.
  - destruct (IH (step T st s)) as [tl ->].
    unfold step, flush.
    destruct (T <? Chunker.length st + String.length s); simpl; eauto.
    rewrite <- app_assoc. eauto.
Qed.

Lemma foldl_gstep_groups_prefix T sentences gst :
  ∃ tl, groups (foldl (gstep T) gst sentences) = groups gst ++ tl.
Proof.
  revert gst. induction sentences as [|s l IH]; intros gst; simpl.
  - exists []. by rewrite app_nil_r.
  - destruct (IH (gstep T gst s)) as [tl ->].
    unfold gstep, gflush.
    destruct (T <? glength gst + String.length s); simpl; eauto.
    rewrite <- app_assoc. eauto.
Qed.

Lemma first_chunk_empty T s rest :
  T < String.length s →
  ∃ tl gtl,
    chunk_sentences_with T (s :: rest) = "" :: tl ∧
    chunk_groups_with T (s :: rest) = [] :: gtl.
Proof.
  intros Hlong. apply Nat.ltb_lt in Hlong.
  unfold chunk_sentences_with, chunk_groups_with, finish, gfinish, loop, gloop.
  simpl foldl.
  destruct (foldl_step_chunks_prefix T rest (step T init s)) as [tl Htl].
  destruct (foldl_gstep_groups_prefix T rest (gstep T ginit s)) as [gtl Hgtl].
  rewrite Htl, Hgtl. unfold step, gstep, flush, gflush. simpl.
  rewrite Hlong. simpl.
  destruct (chunk _), (gchunk _); simpl; eauto.
Qed.

End ChunkerFacts.

(** * Properties of the service *)

Ltac unfold_M := unfold mbind, M_bind, mret, M_ret, raise, lift in *.

Section ServiceFacts.

Context {vectorstore blob : Type}.
Variable E : @environment vectorstore blob.
Implicit Types (w : @world blob) (md upd : gmap string info).

Lemma same_but_index_files_refl w : same_but_index_files w w.
Proof. by repeat split. Qed.

Lemma same_but_index_files_trans w1 w2 w3 :
  same_but_index_files w1 w2 → same_but_index_files w2 w3 →
  same_but_index_files w1 w3.
Proof.
  intros (?&?&?&?&?) (?&?&?&?&?). repeat split; congruence.
Qed.

Lemma load_metadata_ok w md w' :
  load_metadata E w = (Ok md, w') → md = metadata_of w ∧ w' = w.
Proof.
  unfold load_metadata, metadata_of.
  destruct (metadata_file w); simpl; [destruct (metadata_read_fails E)|];
    intros [= <- <-]; done.
Qed.

Lemma load_metadata_world w : (load_metadata E w).2 = w.
Proof.
  unfold load_metadata.
  by destruct (metadata_file w); [destruct (metadata_read_fails E)|].
Qed.

Lemma save_metadata_ok md w w' :
  save_metadata E md w = (Ok (), w') →
  index_dir w = true ∧
  w' = World (documents w) (index_dir w) (index_files w) (Some md) (clock w) (log w).
Proof.
  unfold save_metadata. destruct (index_dir w); simpl; [|done].
  by destruct (metadata_write_fails E); intros [= <-].
Qed.

Lemma save_metadata_raise md w e w' :
  save_metadata E md w = (Raise e, w') → w' = w.
Proof.
  unfold save_metadata. destruct (index_dir w); simpl.
  - by destruct (metadata_write_fails E); intros [= <-].
  - by intros [= <-].
Qed.

(** The loop of the sweep touches nothing but index files, whether it
    returns or raises. *)
Lemma clean_loop_frame now items upd w :
  same_but_index_files w (clean_loop E now items upd w).2.
Proof.
  revert upd w. induction items as [|[k i] rest IH]; intros upd w; simpl.
  - apply same_but_index_files_refl.
  - destruct (stale E now i); [|apply IH].
    unfold_M. unfold index_path_exists. simpl.
    destruct (bool_decide _); [|apply IH].
    unfold os_remove. destruct (remove_fails E k); simpl.
    + apply same_but_index_files_refl.
    + eapply same_but_index_files_trans; [|apply IH]. by repeat split.
Qed.

(** What the loop of the sweep has done when it returns: the retained
    items are added to [updated_metadata], the index files of the stale
    ones are gone. *)
Lemma clean_loop_ok now items upd w r w' :
  NoDup items.*1 →
  clean_loop E now items upd w = (Ok r, w') →
  (∀ d, r !! d =
        match (list_to_map items : gmap string info) !! d with
        | Some i => if stale E now i then upd !! d else Some i
        | None => upd !! d
        end) ∧
  (∀ d, index_files w' !! d =
        match (list_to_map items : gmap string info) !! d with
        | Some i => if stale E now i then None else index_files w !! d
        | None => index_files w !! d
        end).
Proof.
  revert upd w. induction items as [|[k i] rest IH]; intros upd w Hnd Hrun.
  - simpl in Hrun. unfold_M. injection Hrun as <- <-.
    split; intros d; by rewrite list_to_map_nil, lookup_empty.
  - rewrite fmap_cons in Hnd. apply NoDup_cons in Hnd as [Hk Hnd].
    apply not_elem_of_list_to_map_1 in Hk. simpl in Hk.
    simpl in Hrun. rewrite list_to_map_cons.
    destruct (stale E now i) eqn:Hst.
    + unfold_M. unfold index_path_exists in Hrun. simpl in Hrun.
      destruct (bool_decide (is_Some (index_files w !! k))) eqn:Hp.
      * unfold os_remove in Hrun. destruct (remove_fails E k); [done|].
        apply IH in Hrun as [Hr Hf]; [|done]. simpl in Hf.
        split; intros d; destruct (decide (d = k)) as [->|Hne].
        -- rewrite lookup_insert_eq, Hst, Hr, Hk. done.
        -- rewrite lookup_insert_ne by done. apply Hr.
        -- rewrite lookup_insert_eq, Hst, Hf, Hk. apply lookup_delete_eq.
        -- rewrite lookup_insert_ne, Hf by done.
           by rewrite lookup_delete_ne.
      * apply bool_decide_eq_false in Hp. rewrite <- eq_None_not_Some in Hp.
        apply IH in Hrun as [Hr Hf]; [|done].
        split; intros d; destruct (decide (d = k)) as [->|Hne].
        -- rewrite lookup_insert_eq, Hst, Hr, Hk. done.
        -- rewrite lookup_insert_ne by done. apply Hr.
        -- rewrite lookup_insert_eq, Hst, Hf, Hk. done.
        -- rewrite lookup_insert_ne by done. apply Hf.
    + apply IH in Hrun as [Hr Hf]; [|done].
      split; intros d; destruct (decide (d = k)) as [->|Hne].
      * rewrite lookup_insert_eq, Hst, Hr, Hk. apply lookup_insert_eq.
      * rewrite lookup_insert_ne, Hr by done.
        by rewrite lookup_insert_ne.
      * rewrite lookup_insert_eq, Hst, Hf, Hk. done.
      * rewrite lookup_insert_ne by done. apply Hf.
Qed.

(** Without a failing [os.remove] the loop returns. *)
Lemma clean_loop_returns now items upd w :
  (∀ d, remove_fails E d = false) →
  ∃ r w', clean_loop E now items upd w = (Ok r, w').
Proof.
  intros Hrm. revert upd w.
  induction items as [|[k i] rest IH]; intros upd w; simpl.
  - by eexists _, _.
  - destruct (stale E now i); [|apply IH].
    unfold_M. unfold index_path_exists. simpl.
    destruct (bool_decide _); [|apply IH].
    unfold os_remove. rewrite Hrm. apply IH.
Qed.

(** When [os.remove] raises on every path, the loop changes nothing, and it
    raises as soon as it meets a stale entry whose index path exists. *)
Lemma clean_loop_remove_raises now items upd w :
  index_paths_are_directories E →
  (clean_loop E now items upd w).2 = w ∧
  ((∃ d i, (d, i) ∈ items ∧ stale E now i = true ∧ is_Some (index_files w !! d)) →
   ∃ d i, (clean_loop E now items upd w).1 = Raise (OSError d) ∧
          (d, i) ∈ items ∧ stale E now i = true ∧ is_Some (index_files w !! d)).
Proof.
  intros Hrm. revert upd.
  induction items as [|[k i] rest IH]; intros upd; simpl.
  - split; [done|]. intros (d & i & Hin & _). by apply elem_of_nil in Hin.
  - destruct (stale E now i) eqn:Hst.
    + unfold_M. unfold index_path_exists. simpl.
      destruct (bool_decide (is_Some (index_files w !! k))) eqn:Hp.
      * unfold os_remove. rewrite !(Hrm k). simpl. split; [done|]. intros _.
        apply bool_decide_eq_true in Hp. exists k, i.
        split; [done|]. split; [left | done].
      * apply bool_decide_eq_false in Hp.
        destruct (IH upd) as [Hw Hraise]. split; [done|].
        intros (d & i' & Hin & Hst' & Hf).
        apply elem_of_cons in Hin as [[= -> ->]|Hin]; [done|].
        destruct Hraise as (d' & i'' & ? & ? & ?); [by eauto|].
        exists d', i''. split; [done|]. split; [by right | done].
    + destruct (IH (<[k := i]> upd)) as [Hw Hraise]. split; [done|].
      intros (d & i' & Hin & Hst' & Hf).
      apply elem_of_cons in Hin as [[= -> ->]|Hin]; [congruence|].
      destruct Hraise as (d' & i'' & ? & ? & ?); [by eauto|].
      exists d', i''. split; [done|]. split; [by right | done].
Qed.

Lemma retained_lookup now md d :
  retained E now md !! d =
  match md !! d with
  | Some i => if stale E now i then None else Some i
  | None => None
  end.
Proof.
  unfold retained. rewrite map_lookup_filter.
  destruct (md !! d) as [i|]; simpl; [|done].
  destruct (stale E now i); case_guard; simpl; congruence.
Qed.

Lemma elem_of_evicted now md d :
  d ∈ evicted E now md ↔ ∃ i, md !! d = Some i ∧ stale E now i = true.
Proof.
  unfold evicted. rewrite elem_of_dom. unfold is_Some.
  setoid_rewrite map_lookup_filter_Some. naive_solver.
Qed.

(** The sweep, when it returns: the value returned is the map of retained
    entries, which is also what the metadata file now holds; the index
    files of the stale entries are gone and the others are as they were. *)
Lemma clean_old_indexes_ok w r w' :
  clean_old_indexes E w = (Ok r, w') →
  r = retained E (clock w) (metadata_of w) ∧
  metadata_file w' = Some r ∧
  (∀ d, index_files w' !! d =
        match metadata_of w !! d with
        | Some i => if stale E (clock w) i then None else index_files w !! d
        | None => index_files w !! d
        end) ∧
  documents w' = documents w ∧ index_dir w' = true ∧
  clock w' = clock w ∧ log w' = log w.
Proof.
  unfold clean_old_indexes, datetime_now. unfold_M. simpl.
  destruct (load_metadata E w) as [[md|e] w1] eqn:Hload; [|done].
  apply load_metadata_ok in Hload as [-> ->].
  pose proof (clean_loop_frame (clock w) (map_to_list (metadata_of w)) ∅ w) as Hfr.
  destruct (clean_loop E _ _ _ w) as [[upd|e] w2] eqn:Hloop; [|done].
  apply clean_loop_ok in Hloop as [Hr Hf]; [|apply NoDup_fst_map_to_list].
  rewrite list_to_map_to_list in Hr, Hf.
  destruct (save_metadata E upd w2) as [[[]|e] w3] eqn:Hsave; [|done].
  intros [= <- <-]. apply save_metadata_ok in Hsave as [Hdir ->].
  destruct Hfr as (Hdoc & _ & _ & Hclock & Hlog). simpl in *.
  repeat split; try done.
  apply map_eq. intros d. rewrite Hr, retained_lookup.
  destruct (metadata_of w !! d) as [i|]; [|apply lookup_empty].
  destruct (stale E (clock w) i); [apply lookup_empty | done].
Qed.

(** The sweep returns when no operation of the operating system fails and
    the index directory exists. *)
Lemma clean_old_indexes_returns w :
  index_dir w = true → metadata_read_fails E = false →
  metadata_write_fails E = false → (∀ d, remove_fails E d = false) →
  ∃ r w', clean_old_indexes E w = (Ok r, w').
Proof.
  intros Hdir Hrd Hwr Hrm.
  unfold clean_old_indexes, datetime_now. unfold_M. simpl.
  assert (load_metadata E w = (Ok (metadata_of w), w)) as ->.
  { unfold load_metadata, metadata_of. rewrite Hrd. by destruct (metadata_file w). }
  pose proof (clean_loop_frame (clock w) (map_to_list (metadata_of w)) ∅ w) as Hfr.
  destruct (clean_loop_returns (clock w) (map_to_list (metadata_of w)) ∅ w Hrm)
    as (upd & w2 & Hloop).
  rewrite Hloop in Hfr |- *. destruct Hfr as (_ & Hd & _). simpl in Hd.
  unfold save_metadata. rewrite Hd, Hdir, Hwr. simpl. by eexists _, _.
Qed.

(** The sweep never writes to the log, whether it returns or raises. *)
Lemma clean_old_indexes_log w : log (clean_old_indexes E w).2 = log w.
Proof.
  unfold clean_old_indexes, datetime_now. unfold_M. simpl.
  pose proof (load_metadata_world w) as Hw.
  destruct (load_metadata E w) as [[md|e] w1]; simpl in Hw; subst w1; [|done].
  pose proof (clean_loop_frame (clock w) (map_to_list md) ∅ w) as Hfr.
  destruct (clean_loop E _ _ _ w) as [[upd|e] w2]; simpl in *;
    destruct Hfr as (_ & _ & _ & _ & Hlog); [|done].
  destruct (save_metadata E upd w2) as [[[]|e] w3] eqn:Hsave; simpl.
  - apply save_metadata_ok in Hsave as [_ ->]. done.
  - apply save_metadata_raise in Hsave as ->. done.
Qed.

Lemma save_faiss_index_ok v d w w' :
  save_faiss_index E v d w = (Ok (), w') →
  ∃ b, save_local E v = Ok b ∧
       index_files w' = <[d := b]> (index_files w) ∧
       metadata_file w' = Some (<[d := Info (clock w)]> (metadata_of w)).
Proof.
  unfold save_faiss_index, mkdir_index_dir, vectorstore_save_local, datetime_now.
  unfold_M. simpl.
  destruct (save_local E v) as [b|e]; [|done]. simpl.
  destruct (load_metadata E _) as [[md|e] w1] eqn:Hload; [|done].
  apply load_metadata_ok in Hload as [-> ->]. simpl.
  intros Hsave. apply save_metadata_ok in Hsave as [_ ->]. simpl.
  by exists b.
Qed.

Lemma load_faiss_index_ok d w r w' :
  load_faiss_index E d w = (Ok r, w') →
  (index_files w !! d = None ∧ r = None ∧ w' = w) ∨
  (∃ b v, index_files w !! d = Some b ∧ load_local E b = Ok v ∧ r = Some v ∧
          index_files w' = index_files w ∧
          metadata_file w' = Some (<[d := Info (clock w)]> (metadata_of w))).
Proof.
  unfold load_faiss_index, index_path_exists, datetime_now, FAISS_load_local.
  unfold_M. simpl.
  destruct (index_files w !! d) as [b|] eqn:Hb.
  - rewrite bool_decide_eq_true_2 by eauto. simpl.
    destruct (load_metadata E w) as [[md|e] w1] eqn:Hload; [|done].
    apply load_metadata_ok in Hload as [-> ->]. simpl.
    destruct (save_metadata E _ w) as [[[]|e] w3] eqn:Hsave; [|done].
    apply save_metadata_ok in Hsave as [_ ->]. simpl. rewrite Hb.
    destruct (load_local E b) as [v|e] eqn:Hv; [|done].
    intros [= <- <-]. right. by exists b, v.
  - rewrite bool_decide_eq_false_2 by (intros [? ?]; done). simpl.
    intros [= <- <-]. by left.
Qed.

Lemma consistent_of_dom w :
  dom (metadata_of w) = dom (index_files w) → consistent w.
Proof. intros Hdom d. by rewrite <- !elem_of_dom, Hdom. Qed.

End ServiceFacts.

(** * The claims about the chunker *)

(** C2, as stated, fails: two sentences of 800 characters pass the test
    [length + len(sentence) > 1600] (800 + 800 is not more than 1600) and are
    joined into one chunk of 1601 characters, which is not a one-sentence
    chunk. *)
Lemma C2_chunk_longer_than_threshold :
  Chunker.chunk_groups [Scenario.half_a; Scenario.half_b]
    = [[Scenario.half_a; Scenario.half_b]] ∧
  Chunker.chunk_sentences [Scenario.half_a; Scenario.half_b]
    = [join [Scenario.half_a; Scenario.half_b]] ∧
  String.length (join [Scenario.half_a; Scenario.half_b]) = 1601 ∧
  ¬ String.length (join [Scenario.half_a; Scenario.half_b])
      ≤ Chunker.max_chunk_chars ∧
  ¬ Chunker.one_sentence_overflow Chunker.max_chunk_chars
      [Scenario.half_a; Scenario.half_b].
Proof.
  split; [by vm_compute|]. split; [by vm_compute|].
  split; [by vm_compute|]. split.
  - apply Nat.lt_nge, Nat.ltb_lt. by vm_compute.
  - intros (s & Hs & _). discriminate Hs.
Qed.

(** C2, amended: every emitted chunk is the join of a group of sentences
    whose characters, the separating spaces not counted, are at most [T],
    unless the group is one sentence longer than [T]; the chunk itself has
    these characters plus one space between neighbours, so at most
    [T + (k - 1)] characters for a chunk of [k] sentences that is not a
    one-sentence overflow. *)
Theorem C2_chunk_sentence_chars_bounded (T : nat) (sentences : list string) :
  Forall2
    (λ c g,
       c = join g ∧
       String.length c = sentence_chars g + (length g - 1) ∧
       (Chunker.one_sentence_overflow T g ∨
        (sentence_chars g ≤ T ∧ String.length c ≤ T + (length g - 1))))
    (Chunker.chunk_sentences_with T sentences)
    (Chunker.chunk_groups_with T sentences).
Proof.
  rewrite ChunkerFacts.chunk_sentences_groups. apply Forall2_fmap_l.
  apply Forall_Forall2_diag.
  eapply Forall_impl; [apply ChunkerFacts.chunk_groups_bounded|].
  intros g Hg. simpl. split; [done|]. split; [apply join_length|].
  destruct Hg as [Hle|Hov]; [right | by left].
  split; [done|]. rewrite join_length. lia.
Qed.

(** C4: the groups of sentences behind the emitted chunks, concatenated in
    emission order, are the input sentence sequence: order is kept, nothing
    is dropped or duplicated. *)
Theorem C4_chunks_partition_sentences (T : nat) (sentences : list string) :
  Chunker.chunk_sentences_with T sentences
    = join <$> Chunker.chunk_groups_with T sentences ∧
  concat (Chunker.chunk_groups_with T sentences) = sentences.
Proof.
  split.
  - apply ChunkerFacts.chunk_sentences_groups.
  - apply ChunkerFacts.chunk_groups_concat.
Qed.

(** C9: when the first sentence is longer than 1600 characters, the first
    chunk emitted is the empty string, the join of no sentence at all. *)
Theorem C9_empty_first_chunk (s : string) (rest : list string) :
  Chunker.max_chunk_chars < String.length s →
  ∃ tl gtl,
    Chunker.chunk_sentences (s :: rest) = "" :: tl ∧
    Chunker.chunk_groups (s :: rest) = [] :: gtl.
Proof. apply ChunkerFacts.first_chunk_empty. Qed.

Lemma C9_empty_first_chunk_witness :
  Chunker.max_chunk_chars < String.length Scenario.long_sentence ∧
  ∃ tl gtl,
    Chunker.chunk_sentences [Scenario.long_sentence; "b"] = "" :: tl ∧
    Chunker.chunk_groups [Scenario.long_sentence; "b"] = [] :: gtl.
Proof.
  split.
  - apply Nat.ltb_lt. vm_compute. reflexivity.
  - apply (C9_empty_first_chunk Scenario.long_sentence ["b"]).
    apply Nat.ltb_lt. vm_compute. reflexivity.
Defined.

(** * The claims about the index lifecycle *)

Section ServiceClaims.

Context {vectorstore blob : Type}.
Variable E : @environment vectorstore blob.
Implicit Types (w : @world blob).

(** C1, amended: when the sweep returns, the value returned is the map of
    the entries that were retained (those with
    [now - last_access <= threshold]), which is also the map it has saved;
    its keys are the identifiers of the metadata that were not evicted. *)
Theorem C1_sweep_returns_retained w r w' :
  clean_old_indexes E w = (Ok r, w') →
  r = retained E (clock w) (metadata_of w) ∧
  metadata_file w' = Some r ∧
  dom r = dom (metadata_of w) ∖ evicted E (clock w) (metadata_of w).
Proof.
  intros Hrun. apply clean_old_indexes_ok in Hrun as (-> & Hfile & _).
  split; [done|]. split; [done|].
  apply set_eq. intros d.
  rewrite elem_of_difference, !elem_of_dom, elem_of_evicted, retained_lookup.
  unfold is_Some. destruct (metadata_of w !! d) as [i|].
  - destruct (stale E (clock w) i) eqn:Hst.
    + split; [intros [x Hx]; discriminate|].
      intros [_ Hn]. exfalso. apply Hn. eauto.
    + split; [|eauto]. intros _. split; [eauto|].
      intros (i' & [= <-] & Hst'). congruence.
  - split; [intros [x Hx] | intros [[x Hx] _]]; discriminate.
Qed.

(** C3, the defect: an entry whose age exceeds the threshold is not
    evicted when its index is one the service saved. The index path is then
    a directory, on which [os.remove] raises: the sweep stops at the first
    such entry, before the metadata file is rewritten, and leaves every
    entry and every index as it was. The stale entry [d] is still in the
    metadata and its index still exists. *)
Theorem C3_stale_index_not_evicted w d i :
  index_paths_are_directories E →
  metadata_read_fails E = false →
  metadata_of w !! d = Some i →
  is_Some (index_files w !! d) →
  (clock w - last_access i > timedelta_hours (INACTIVITY_THRESHOLD_HOURS E))%Z →
  ∃ d' i', clean_old_indexes E w = (Raise (OSError d'), w) ∧
           metadata_of w !! d' = Some i' ∧ stale E (clock w) i' = true ∧
           is_Some (index_files w !! d').
Proof.
  intros Hdir Hrd Hd Hf Hage.
  assert (stale E (clock w) i = true) as Hst.
  { unfold stale. apply Z.ltb_lt. lia. }
  unfold clean_old_indexes, datetime_now. unfold_M. simpl.
  assert (load_metadata E w = (Ok (metadata_of w), w)) as ->.
  { unfold load_metadata, metadata_of. rewrite Hrd. by destruct (metadata_file w). }
  destruct (clean_loop_remove_raises E (clock w) (map_to_list (metadata_of w)) ∅ w Hdir)
    as [Hw Hraise].
  destruct Hraise as (d' & i' & Hres & Hin & Hst' & Hf').
  { exists d, i. split; [by apply elem_of_map_to_list | done]. }
  destruct (clean_loop E _ _ _ w) as [res w1]. simpl in Hw, Hres. subst.
  exists d', i'. split; [done|]. split; [by apply elem_of_map_to_list | done].
Qed.

(** C5: for a document identifier that is not in the document store the
    answer operation returns, without raising, the payload
    "No document found with id <id>", and leaves the whole state (index
    files and metadata included) as it was. *)
Theorem C5_document_not_found w (q d : string) :
  documents w !! d = None →
  generate_answer_by_id E q d w = (Ok ("No document found with id " +:+ d), w).
Proof.
  intros Hd. unfold generate_answer_by_id. unfold_M. by rewrite Hd.
Qed.

(** C6, amended: the validation is the separate operation
    [validate_qa_request], which the endpoint [ask_question] runs before
    [generate_answer_by_id]: for a request whose question or document
    identifier is empty both fail with an HTTP 400 error, and nothing but
    the log has changed. *)
Theorem C6_validation_by_validate_qa_request w (req : QARequest) :
  question req = "" ∨ document_id req = "" →
  ∃ message w',
    validate_qa_request req w = (Raise (HTTPException 400 message), w') ∧
    ask_question E req w = (Raise (HTTPException 400 message), w') ∧
    documents w' = documents w ∧ index_dir w' = index_dir w ∧
    index_files w' = index_files w ∧ metadata_file w' = metadata_file w.
Proof.
  intros Hempty. unfold ask_question, validate_qa_request, raise_http_exception, logger.
  unfold_M. simpl.
  destruct (decide (question req = "")) as [Hq|Hq].
  - rewrite (bool_decide_eq_true_2 _ Hq). simpl. by eexists _, _.
  - rewrite (bool_decide_eq_false_2 _ Hq). simpl.
    destruct Hempty as [?|Hd]; [done|].
    rewrite (bool_decide_eq_true_2 _ Hd). simpl. by eexists _, _.
Qed.

(** C7: if a metadata entry exists exactly for the documents that have an
    index file, then this still holds after [save_faiss_index],
    [load_faiss_index] and [clean_old_indexes], whenever they return. *)
Theorem C7_store_metadata_consistent w :
  consistent w →
  (∀ v d w', save_faiss_index E v d w = (Ok (), w') → consistent w') ∧
  (∀ d r w', load_faiss_index E d w = (Ok r, w') → consistent w') ∧
  (∀ r w', clean_old_indexes E w = (Ok r, w') → consistent w').
Proof.
  intros Hc. split; [|split].
  - intros v d w' Hrun. apply save_faiss_index_ok in Hrun as (b & _ & Hf & Hm).
    intros x. unfold metadata_of. rewrite Hf, Hm. simpl.
    destruct (decide (x = d)) as [->|Hne].
    + rewrite !lookup_insert_eq. split; eauto.
    + rewrite !lookup_insert_ne by done. apply Hc.
  - intros d r w' Hrun.
    apply load_faiss_index_ok in Hrun as [(_ & _ & ->)|(b & v & Hb & _ & _ & Hf & Hm)];
      [done|].
    intros x. unfold metadata_of. rewrite Hf, Hm. simpl.
    destruct (decide (x = d)) as [->|Hne].
    + rewrite lookup_insert_eq, Hb. split; eauto.
    + rewrite lookup_insert_ne by done. apply Hc.
  - intros r w' Hrun. apply clean_old_indexes_ok in Hrun as (-> & Hm & Hf & _).
    intros x. unfold metadata_of at 1. rewrite Hm, Hf. simpl.
    rewrite retained_lookup. specialize (Hc x).
    destruct (metadata_of w !! x) as [i|] eqn:Hx.
    + destruct (stale E (clock w) i).
      * split; intros [? ?]; done.
      * split; intros _; [apply Hc|]; eauto.
    + done.
Qed.

(** C8, amended: [cleanup_job] has no handler: an error raised by the sweep
    is raised by [cleanup_job] too, unchanged and with the state the sweep
    left, and nothing is written to the log; the log line is written only
    after a sweep that returns. *)
Theorem C8_cleanup_job_propagates w e w' :
  clean_old_indexes E w = (Raise e, w') →
  cleanup_job E w = (Raise e, w') ∧ log w' = log w.
Proof.
  intros Hrun. split.
  - unfold cleanup_job. unfold_M. by rewrite Hrun.
  - pose proof (clean_old_indexes_log E w) as Hlog. by rewrite Hrun in Hlog.
Qed.

(** C10: when the index file of a document exists but does not deserialize
    (and the metadata file can be read and written), [load_faiss_index]
    raises the deserialization error after it has set the last access of
    the document to the current time and saved the metadata: the state is
    not the one before the call, unless the entry already held that very
    time. *)
Theorem C10_metadata_touched_before_load w d b e :
  index_files w !! d = Some b →
  load_local E b = Raise e →
  index_dir w = true →
  metadata_read_fails E = false →
  metadata_write_fails E = false →
  ∃ w',
    load_faiss_index E d w = (Raise e, w') ∧
    metadata_file w' = Some (<[d := Info (clock w)]> (metadata_of w)) ∧
    index_files w' = index_files w ∧
    (metadata_file w ≠ Some (<[d := Info (clock w)]> (metadata_of w)) → w' ≠ w).
Proof.
  intros Hb Hload Hdir Hrd Hwr.
  unfold load_faiss_index, index_path_exists, datetime_now, FAISS_load_local.
  unfold_M. simpl. rewrite bool_decide_eq_true_2 by eauto. simpl.
  assert (load_metadata E w = (Ok (metadata_of w), w)) as ->.
  { unfold load_metadata, metadata_of. rewrite Hrd. by destruct (metadata_file w). }
  unfold save_metadata. rewrite Hdir, Hwr. simpl. rewrite Hb, Hload.
  eexists. split; [reflexivity|]. simpl. split; [done|]. split; [done|].
  intros Hne Heq. apply (f_equal metadata_file) in Heq. simpl in Heq.
  congruence.
Qed.

End ServiceClaims.

(** * The claims on concrete scenarios *)

Section Scenarios.

Import Scenario.

(** C1, as stated, fails: with metadata [{"d1": t0, "d2": t1}], a threshold
    of one hour, [now = t0 + 2h] and [t1 = now - 30min], the sweep evicts
    "d1" and returns the map holding "d2", the entry it kept. *)
Lemma C1_sweep_returns_kept_not_evicted :
  clean_old_indexes quiet two_indexes = (Ok two_indexes_kept, two_indexes_swept) ∧
  evicted quiet (clock two_indexes) (metadata_of two_indexes) = {["d1"]} ∧
  dom two_indexes_kept = {["d2"]} ∧
  dom two_indexes_kept ≠ evicted quiet (clock two_indexes) (metadata_of two_indexes).
Proof.
  split; [by vm_compute|]. split; [by vm_compute|]. split; [by vm_compute|].
  intros H. vm_compute in H. discriminate H.
Qed.

Lemma C1_sweep_returns_retained_witness :
  clean_old_indexes quiet two_indexes = (Ok two_indexes_kept, two_indexes_swept) ∧
  two_indexes_kept = retained quiet (clock two_indexes) (metadata_of two_indexes) ∧
  metadata_file two_indexes_swept = Some two_indexes_kept ∧
  dom two_indexes_kept =
    dom (metadata_of two_indexes)
      ∖ evicted quiet (clock two_indexes) (metadata_of two_indexes).
Proof.
  split; [vm_compute; reflexivity|].
  apply (C1_sweep_returns_retained quiet two_indexes).
  vm_compute; reflexivity.
Defined.

(** The failing input of C3: the first index is saved, for "d1", and the
    sweep runs one hour and a microsecond later with a threshold of one hour.
    The sweep raises the error of [os.remove] for "d1" and nothing is
    evicted. *)
Lemma C3_stale_index_not_evicted_witness :
  save_faiss_index read_only [] "d1" fresh = (Ok (), first_index_saved) ∧
  clean_old_indexes read_only (at_time (3 * hour + 1) first_index_saved) =
    (Raise (OSError "d1"), at_time (3 * hour + 1) first_index_saved) ∧
  ∃ d' i',
    clean_old_indexes read_only (at_time (3 * hour + 1) first_index_saved) =
      (Raise (OSError d'), at_time (3 * hour + 1) first_index_saved) ∧
    metadata_of (at_time (3 * hour + 1) first_index_saved) !! d' = Some i' ∧
    stale read_only (clock (at_time (3 * hour + 1) first_index_saved)) i' = true ∧
    is_Some (index_files (at_time (3 * hour + 1) first_index_saved) !! d').
Proof.
  split; [vm_compute; reflexivity|]. split; [vm_compute; reflexivity|].
  apply (C3_stale_index_not_evicted read_only
           (at_time (3 * hour + 1) first_index_saved) "d1" (Info (2 * hour))).
  - intros d. reflexivity.
  - reflexivity.
  - vm_compute; reflexivity.
  - vm_compute; eauto.
  - vm_compute; reflexivity.
Defined.

Lemma C5_document_not_found_witness :
  documents two_indexes !! "ghost" = None ∧
  generate_answer_by_id quiet "What is this about?" "ghost" two_indexes
    = (Ok "No document found with id ghost", two_indexes).
Proof.
  split; [vm_compute; reflexivity|].
  apply (C5_document_not_found quiet two_indexes "What is this about?" "ghost").
  vm_compute; reflexivity.
Defined.

(** C6, as stated, fails: called directly with an empty question,
    [generate_answer_by_id] raises nothing. For an unknown document it
    returns the "no document found" payload; for a stored document it goes
    on to build and save the index and returns the answer of the chain. *)
Lemma C6_answer_without_validation :
  generate_answer_by_id quiet "" "ghost" two_indexes
    = (Ok "No document found with id ghost", two_indexes) ∧
  generate_answer_by_id quiet "What is this about?" "" two_indexes
    = (Ok "No document found with id ", two_indexes) ∧
  generate_answer_by_id quiet "" "doc-1" with_document
    = (Ok "", with_document_indexed).
Proof. repeat split; by vm_compute. Qed.

Lemma C6_validation_by_validate_qa_request_witness :
  (question empty_question = "" ∨ document_id empty_question = "") ∧
  ∃ message w',
    validate_qa_request empty_question with_document
      = (Raise (HTTPException 400 message), w') ∧
    ask_question quiet empty_question with_document
      = (Raise (HTTPException 400 message), w') ∧
    documents w' = documents with_document ∧
    index_dir w' = index_dir with_document ∧
    index_files w' = index_files with_document ∧
    metadata_file w' = metadata_file with_document.
Proof.
  split; [left; reflexivity|].
  apply (C6_validation_by_validate_qa_request quiet with_document empty_question).
  left; reflexivity.
Defined.

Lemma C7_store_metadata_consistent_witness :
  consistent two_indexes ∧
  consistent (save_faiss_index quiet [] "d3" two_indexes).2 ∧
  consistent (load_faiss_index quiet "d1" two_indexes).2 ∧
  consistent two_indexes_swept.
Proof.
  assert (consistent two_indexes) as Hc
    by (apply consistent_of_dom; vm_compute; reflexivity).
  destruct (C7_store_metadata_consistent quiet two_indexes Hc) as (Hsave & Hload & Hclean).
  split; [exact Hc|]. split; [|split].
  - apply (Hsave [] "d3"). vm_compute; reflexivity.
  - apply (Hload "d1" (Some [])). vm_compute; reflexivity.
  - apply (Hclean two_indexes_kept). vm_compute; reflexivity.
Defined.

(** C8, as stated, fails: when [os.remove] raises during the sweep,
    [cleanup_job] raises the same error to its caller and logs nothing; so
    it does on a fresh installation, where the sweep cannot write the
    metadata file because the index directory does not exist. *)
Lemma C8_cleanup_job_raises :
  clean_old_indexes read_only two_indexes = (Raise (OSError "d1"), two_indexes) ∧
  cleanup_job read_only two_indexes = (Raise (OSError "d1"), two_indexes) ∧
  clean_old_indexes quiet fresh = (Raise FileNotFoundError, fresh) ∧
  cleanup_job quiet fresh = (Raise FileNotFoundError, fresh) ∧
  log two_indexes = [] ∧ log fresh = [].
Proof. repeat split; by vm_compute. Qed.

Lemma C8_cleanup_job_propagates_witness :
  clean_old_indexes read_only two_indexes = (Raise (OSError "d1"), two_indexes) ∧
  cleanup_job read_only two_indexes = (Raise (OSError "d1"), two_indexes) ∧
  log two_indexes = log two_indexes.
Proof.
  split; [vm_compute; reflexivity|].
  apply (C8_cleanup_job_propagates read_only two_indexes).
  vm_compute; reflexivity.
Defined.

Lemma C10_metadata_touched_before_load_witness :
  index_files corrupt_index !! "d1" = Some None ∧
  load_local quiet None = Raise CorruptIndexError ∧
  ∃ w',
    load_faiss_index quiet "d1" corrupt_index = (Raise CorruptIndexError, w') ∧
    metadata_file w'
      = Some (<["d1" := Info (clock corrupt_index)]> (metadata_of corrupt_index)) ∧
    index_files w' = index_files corrupt_index ∧
    (metadata_file corrupt_index
       ≠ Some (<["d1" := Info (clock corrupt_index)]> (metadata_of corrupt_index)) →
     w' ≠ corrupt_index).
Proof.
  split; [vm_compute; reflexivity|]. split; [reflexivity|].
  apply (C10_metadata_touched_before_load quiet corrupt_index "d1" None
           CorruptIndexError);
    vm_compute; reflexivity.
Defined.

End Scenarios.


(** * Further properties of the chunker *)

Module ChunkerShapeFacts.
Import Chunker ChunkerShape.

Lemma sentence_chars_elem (g : list string) (s : string) :
  s ∈ g → String.length s ≤ sentence_chars g.
Proof.
  induction 1 as [s g|s s' g _ IH]; unfold sentence_chars in *; simpl; lia.
Qed.

Lemma gloop_shape T sentences : shape T sentences (gloop T sentences).
Proof.
  unfold gloop. induction sentences as [|s l IH] using rev_ind.
  - split; simpl.
    + intros i g s g' _ Hs. by destruct i.
    + intros i g Hg. by destruct i.
    + intros _. by left.
    + done.
  - rewrite foldl_snoc.
    pose proof (ChunkerFacts.gloop_invariant T l) as [Hcons Hlen _ _].
    unfold gloop in Hcons, Hlen. destruct IH as [Hgr Htl Hhd Hop].
    set (gst := foldl (gstep T) ginit l) in *.
    unfold gstep, gflush.
    destruct (T <? glength gst + String.length s) eqn:Hcmp; simpl.
    + apply Nat.ltb_lt in Hcmp. split; simpl.
      * intros i g s0 g' Hg Hs.
        apply lookup_snoc_Some in Hs as [[Hi Hs]|[Hi Hs]].
        -- rewrite lookup_app_l in Hg by lia. eauto.
        -- simplify_eq. rewrite length_app in Hi. simpl in Hi.
           assert (i = Datatypes.length (groups gst)) as -> by lia.
           rewrite lookup_app_l in Hg by (rewrite length_app; simpl; lia).
           rewrite list_lookup_middle in Hg by done. simplify_eq. lia.
      * intros i g Hg.
        apply lookup_snoc_Some in Hg as [[Hi Hg]|[Hi Hg]]; [eauto | by rewrite <- Hg].
      * intros Hz. rewrite lookup_app_l in Hz by (rewrite length_app; simpl; lia).
        destruct (Hhd Hz) as [->|(s0 & rest & -> & Hs0)].
        -- right. exists s, []. split; [done|].
           subst gst. simpl in Hcmp. lia.
        -- right. exists s0, (rest ++ [s]). done.
      * done.
    + split; simpl.
      * intros i g s0 g' Hg Hs.
        apply lookup_snoc_Some in Hs as [[Hi Hs]|[Hi Hs]].
        -- apply (Hgr i g s0 g').
           ++ rewrite lookup_app_l in Hg |- * by lia. done.
           ++ by rewrite lookup_app_l.
        -- rewrite lookup_app_l in Hg by lia.
           destruct (gchunk gst) as [|s1 k] eqn:Hk.
           ++ destruct (Hop eq_refl) as [Hnil _]. rewrite Hnil in Hi. done.
           ++ simpl in Hs. simplify_eq.
              apply (Hgr i g s0 k).
              ** by rewrite lookup_app_l by lia.
              ** rewrite Hi. by rewrite list_lookup_middle.
      * intros i g Hg.
        apply lookup_snoc_Some in Hg as [[Hi Hg]|[Hi Hg]].
        -- apply (Htl i). by rewrite lookup_app_l.
        -- subst g. by destruct (gchunk gst).
      * intros Hz. destruct (groups gst) as [|g0 gs] eqn:Hgs.
        -- simpl in Hz. by destruct (gchunk gst).
        -- simpl in Hz. simplify_eq.
           destruct (Hhd eq_refl) as [->|(s0 & rest & -> & Hs0)].
           ++ subst gst. done.
           ++ right. exists s0, (rest ++ [s]). done.
      * intros Hk. by destruct (gchunk gst).
Qed.

Lemma chunk_groups_shape T sentences :
  greedy T (chunk_groups_with T sentences) ∧
  tail_nonempty (chunk_groups_with T sentences) ∧
  head_empty_only_by_overflow T sentences (chunk_groups_with T sentences).
Proof.
  unfold chunk_groups_with, gfinish.
  destruct (gloop_shape T sentences) as [Hgr Htl Hhd Hop].
  destruct (gchunk (gloop T sentences)) eqn:Hk; [|done].
  destruct (Hop eq_refl) as [-> _].
  split; [|split]; [intros i ? ? ? Hg | intros i ? Hg | intros Hg];
    by rewrite ?lookup_nil in Hg.
Qed.

(** A document whose sentences fit the threshold together is never
    flushed. *)
Lemma gloop_short T sentences :
  sentence_chars sentences ≤ T →
  gloop T sentences =
    {| groups := []; gchunk := sentences; glength := sentence_chars sentences |}.
Proof.
  unfold gloop. induction sentences as [|s l IH] using rev_ind; [done|].
  rewrite sentence_chars_app. change (sentence_chars [s]) with (String.length s + 0).
  intros Hle. rewrite foldl_snoc, IH by lia.
  unfold gstep, gflush. simpl.
  rewrite (proj2 (Nat.ltb_ge _ _)) by lia. simpl. f_equal. lia.
Qed.

End ChunkerShapeFacts.

(** X1: the chunker emits no chunk exactly when there is no sentence. *)
Theorem chunker_no_chunk_iff_no_sentence (T : nat) (sentences : list string) :
  Chunker.chunk_sentences_with T sentences = [] ↔ sentences = [].
Proof.
  split.
  - intros Hnil. rewrite ChunkerFacts.chunk_sentences_groups in Hnil.
    apply fmap_nil_inv in Hnil.
    rewrite <- (ChunkerFacts.chunk_groups_concat T sentences). by rewrite Hnil.
  - by intros ->.
Qed.

(** X2: sentences that fit the threshold together (separators not counted)
    come out as one chunk, all of them joined. *)
Theorem chunker_short_document_one_chunk (T : nat) (sentences : list string) :
  sentences ≠ [] →
  sentence_chars sentences ≤ T →
  Chunker.chunk_sentences_with T sentences = [join sentences].
Proof.
  intros Hne Hle. rewrite ChunkerFacts.chunk_sentences_groups.
  unfold Chunker.chunk_groups_with, Chunker.gfinish.
  rewrite ChunkerShapeFacts.gloop_short by done. simpl.
  by destruct sentences.
Qed.

Lemma chunker_short_document_one_chunk_witness :
  ["One."; "Two."; "Three."] ≠ [] ∧
  sentence_chars ["One."; "Two."; "Three."] ≤ 1600 ∧
  Chunker.chunk_sentences_with 1600 ["One."; "Two."; "Three."]
    = [join ["One."; "Two."; "Three."]].
Proof.
  split; [discriminate|]. split; [apply Nat.leb_le; vm_compute; reflexivity|].
  apply (chunker_short_document_one_chunk 1600 ["One."; "Two."; "Three."]).
  - discriminate.
  - apply Nat.leb_le. vm_compute. reflexivity.
Defined.

(** X3: the chunker is greedy: whenever a chunk is closed, the sentence that
    opens the next chunk would have taken its sentence characters over the
    threshold. *)
Theorem chunker_greedy (T : nat) (sentences : list string) :
  ChunkerShape.greedy T (Chunker.chunk_groups_with T sentences).
Proof. apply ChunkerShapeFacts.chunk_groups_shape. Qed.

(** X4: a chunk without sentences can only be the first one, and only when
    the first sentence is longer than the threshold. *)
Theorem chunker_empty_chunk_only_first (T : nat) (sentences : list string) :
  (∀ i g, Chunker.chunk_groups_with T sentences !! S i = Some g → g ≠ []) ∧
  (Chunker.chunk_groups_with T sentences !! 0 = Some [] →
   ∃ s rest, sentences = s :: rest ∧ T < String.length s).
Proof.
  destruct (ChunkerShapeFacts.chunk_groups_shape T sentences) as (_ & Htl & Hhd).
  split; [exact Htl|]. intros Hz.
  destruct (Hhd Hz) as [->|?]; [|done]. done.
Qed.

(** X5: a sentence longer than the threshold is alone in its chunk. *)
Theorem chunker_oversized_sentence_alone
    (T : nat) (sentences : list string) (i : nat) (g : list string) (s : string) :
  Chunker.chunk_groups_with T sentences !! i = Some g →
  s ∈ g →
  T < String.length s →
  g = [s].
Proof.
  intros Hg Hs Hlong.
  pose proof (ChunkerFacts.chunk_groups_bounded T sentences) as Hb.
  rewrite Forall_lookup in Hb. destruct (Hb i g Hg) as [Hle|(s' & -> & _)].
  - apply ChunkerShapeFacts.sentence_chars_elem in Hs. lia.
  - by apply list_elem_of_singleton in Hs as ->.
Qed.

Lemma chunker_oversized_sentence_alone_witness :
  Chunker.chunk_groups_with 3 ["ab"; "long one"; "c"] !! 1 = Some ["long one"] ∧
  "long one" ∈ ["long one"] ∧
  3 < String.length "long one" ∧
  ["long one"] = ["long one"].
Proof.
  split; [vm_compute; reflexivity|]. split; [apply list_elem_of_singleton; reflexivity|].
  split; [apply Nat.ltb_lt; vm_compute; reflexivity|].
  apply (chunker_oversized_sentence_alone 3 ["ab"; "long one"; "c"] 1
           ["long one"] "long one").
  - vm_compute; reflexivity.
  - apply list_elem_of_singleton; reflexivity.
  - apply Nat.ltb_lt; vm_compute; reflexivity.
Defined.

(** * Further properties of the service *)

Section ServiceMoreFacts.

Context {vectorstore blob : Type}.
Variable E : @environment vectorstore blob.
Implicit Types (w : @world blob) (md upd : gmap string info).

Lemma load_metadata_run w :
  metadata_read_fails E = false →
  load_metadata E w = (Ok (metadata_of w), w).
Proof.
  intros Hrd. unfold load_metadata, metadata_of. rewrite Hrd.
  by destruct (metadata_file w).
Qed.

Lemma save_metadata_run md w :
  index_dir w = true → metadata_write_fails E = false →
  save_metadata E md w =
    (Ok (), World (documents w) true (index_files w) (Some md) (clock w) (log w)).
Proof. intros Hdir Hwr. unfold save_metadata. by rewrite Hdir, Hwr. Qed.

Lemma save_metadata_ok_write md w w' :
  save_metadata E md w = (Ok (), w') → metadata_write_fails E = false.
Proof.
  unfold save_metadata. destruct (index_dir w); simpl; [|done].
  by destruct (metadata_write_fails E).
Qed.

(** The whole state after a [save_faiss_index] that returns. *)
Lemma save_faiss_index_ok_world v d w w' :
  save_faiss_index E v d w = (Ok (), w') →
  ∃ b, save_local E v = Ok b ∧ metadata_write_fails E = false ∧
       w' = World (documents w) true (<[d := b]> (index_files w))
              (Some (<[d := Info (clock w)]> (metadata_of w))) (clock w) (log w).
Proof.
  unfold save_faiss_index, mkdir_index_dir, vectorstore_save_local, datetime_now.
  unfold_M. simpl.
  destruct (save_local E v) as [b|e]; [|done]. simpl.
  destruct (load_metadata E _) as [[md|e] w1] eqn:Hload; [|done].
  apply load_metadata_ok in Hload as [-> ->]. simpl.
  intros Hsave. pose proof (save_metadata_ok_write _ _ _ Hsave) as Hwr.
  apply save_metadata_ok in Hsave as [_ ->]. simpl. by exists b.
Qed.

(** The run of [load_faiss_index] on an index file that exists, when the
    metadata file can be read and written. *)
Lemma load_faiss_index_run d b w :
  index_files w !! d = Some b → index_dir w = true →
  metadata_read_fails E = false → metadata_write_fails E = false →
  load_faiss_index E d w =
    (match load_local E b with Ok v => Ok (Some v) | Raise e => Raise e end,
     World (documents w) true (index_files w)
       (Some (<[d := Info (clock w)]> (metadata_of w))) (clock w) (log w)).
Proof.
  intros Hb Hdir Hrd Hwr.
  unfold load_faiss_index, index_path_exists, datetime_now, FAISS_load_local.
  unfold_M. simpl. rewrite bool_decide_eq_true_2 by eauto. simpl.
  rewrite load_metadata_run by done. simpl.
  rewrite save_metadata_run by done. simpl. rewrite Hb.
  by destruct (load_local E b).
Qed.

Lemma load_faiss_index_miss d w :
  index_files w !! d = None → load_faiss_index E d w = (Ok None, w).
Proof.
  intros Hb. unfold load_faiss_index, index_path_exists. unfold_M. simpl.
  rewrite bool_decide_eq_false_2; [done|]. rewrite Hb. by intros [? ?].
Qed.

Lemma save_faiss_index_consistent v d w w' :
  consistent w → save_faiss_index E v d w = (Ok (), w') → consistent w'.
Proof.
  intros Hc Hrun. apply save_faiss_index_ok in Hrun as (b & _ & Hf & Hm).
  intros x. unfold metadata_of. rewrite Hf, Hm. simpl.
  destruct (decide (x = d)) as [->|Hne].
  - rewrite !lookup_insert_eq. split; eauto.
  - rewrite !lookup_insert_ne by done. apply Hc.
Qed.

Lemma load_faiss_index_consistent d w r w' :
  consistent w → load_faiss_index E d w = (Ok r, w') → consistent w'.
Proof.
  intros Hc Hrun.
  apply load_faiss_index_ok in Hrun as [(_ & _ & ->)|(b & v & Hb & _ & _ & Hf & Hm)];
    [done|].
  intros x. unfold metadata_of. rewrite Hf, Hm. simpl.
  destruct (decide (x = d)) as [->|Hne].
  - rewrite lookup_insert_eq, Hb. split; eauto.
  - rewrite lookup_insert_ne by done. apply Hc.
Qed.

(** A loop over entries none of which is stale keeps them all and touches
    nothing. *)
Lemma clean_loop_none_stale now items upd w :
  Forall (λ kv, stale E now kv.2 = false) items →
  ∃ r, clean_loop E now items upd w = (Ok r, w).
Proof.
  intros Hall. revert upd. induction Hall as [|[k i] rest Hst _ IH]; intros upd.
  - by eexists.
  - simpl in *. rewrite Hst. apply IH.
Qed.

(** What the loop has seen when it raises: [os.remove] failed on the index
    file, still there, of a stale entry. *)
Lemma clean_loop_raise now items upd w e w' :
  clean_loop E now items upd w = (Raise e, w') →
  ∃ d i, e = OSError d ∧ (d, i) ∈ items ∧ stale E now i = true ∧
         remove_fails E d = true ∧ is_Some (index_files w' !! d).
Proof.
  revert upd w. induction items as [|[k i] rest IH]; intros upd w Hrun.
  - done.
  - simpl in Hrun. destruct (stale E now i) eqn:Hst.
    + unfold_M. unfold index_path_exists in Hrun. simpl in Hrun.
      destruct (bool_decide (is_Some (index_files w !! k))) eqn:Hp.
      * unfold os_remove in Hrun. destruct (remove_fails E k) eqn:Hrm.
        -- injection Hrun as <- <-. apply bool_decide_eq_true in Hp.
           exists k, i. repeat split; [left | done..].
        -- apply IH in Hrun as (d & i' & ? & ? & ?). exists d, i'.
           split; [done|]. split; [by right | done].
      * apply IH in Hrun as (d & i' & ? & ? & ?). exists d, i'.
        split; [done|]. split; [by right | done].
    + apply IH in Hrun as (d & i' & ? & ? & ?). exists d, i'.
      split; [done|]. split; [by right | done].
Qed.

End ServiceMoreFacts.

Section ServiceExtras.

Context {vectorstore blob : Type}.
Variable E : @environment vectorstore blob.
Implicit Types (w : @world blob) (md : gmap string info).

(** X6: [validate_qa_request] returns exactly for the requests whose
    question and document identifier are both non-empty, and then changes
    nothing, the log included. *)
Theorem validate_qa_request_accepts_iff w (req : QARequest) :
  (question req ≠ "" ∧ document_id req ≠ "" →
   validate_qa_request req w = (Ok (), w)) ∧
  (∀ w', validate_qa_request req w = (Ok (), w') →
         question req ≠ "" ∧ document_id req ≠ "" ∧ w' = w).
Proof.
  unfold validate_qa_request, raise_http_exception, logger. unfold_M. simpl.
  destruct (decide (question req = "")) as [Hq|Hq];
    [rewrite (bool_decide_eq_true_2 _ Hq) | rewrite (bool_decide_eq_false_2 _ Hq)];
    simpl.
  - split; [by intros [? ?] | done].
  - destruct (decide (document_id req = "")) as [Hd|Hd];
      [rewrite (bool_decide_eq_true_2 _ Hd) | rewrite (bool_decide_eq_false_2 _ Hd)];
      simpl.
    + split; [by intros [? ?] | done].
    + split; [done|]. by intros w' [= <-].
Qed.

(** X7: the question is checked first. An empty question gives the error
    400 "Question cannot be empty" whatever the document identifier is; a
    non-empty question with an empty identifier gives 400 "Document ID is
    required". Either way exactly one ERROR record is added to the log. *)
Theorem validate_qa_request_messages w (req : QARequest) :
  (question req = "" →
   validate_qa_request req w =
     (Raise (HTTPException 400 "Question cannot be empty"),
      World (documents w) (index_dir w) (index_files w) (metadata_file w) (clock w)
        (log w ++ [{| log_level := ERROR; log_text := "Question cannot be empty";
                      log_args := [] |}]))) ∧
  (question req ≠ "" → document_id req = "" →
   validate_qa_request req w =
     (Raise (HTTPException 400 "Document ID is required"),
      World (documents w) (index_dir w) (index_files w) (metadata_file w) (clock w)
        (log w ++ [{| log_level := ERROR; log_text := "Document ID cannot be empty";
                      log_args := [] |}]))).
Proof.
  unfold validate_qa_request, raise_http_exception, logger. unfold_M. simpl.
  split.
  - intros Hq. by rewrite (bool_decide_eq_true_2 _ Hq).
  - intros Hq Hd. rewrite (bool_decide_eq_false_2 _ Hq). simpl.
    by rewrite (bool_decide_eq_true_2 _ Hd).
Qed.

(** X8: the endpoint answers a well-formed request for a document that is
    not stored with status 200 and the "no document found" text as result,
    and changes nothing. *)
Theorem ask_question_unknown_document w (req : QARequest) :
  question req ≠ "" → document_id req ≠ "" →
  documents w !! document_id req = None →
  ask_question E req w =
    (Ok {| response_status := 200;
           response_result := "No document found with id " +:+ document_id req |},
     w).
Proof.
  intros Hq Hd Hdoc.
  unfold ask_question, validate_qa_request, generate_answer_by_id. unfold_M. simpl.
  rewrite (bool_decide_eq_false_2 _ Hq), (bool_decide_eq_false_2 _ Hd). simpl.
  by rewrite Hdoc.
Qed.

(** X9: whatever its outcome, [load_faiss_index] leaves the index files, the
    documents and the log as they were; when writing the metadata file does
    not fail, the metadata entries of the other documents are as they were
    too; without an index file for the document it returns [None] and
    changes nothing at all. *)
Theorem load_faiss_index_frame w (d : string) :
  index_files (load_faiss_index E d w).2 = index_files w ∧
  documents (load_faiss_index E d w).2 = documents w ∧
  log (load_faiss_index E d w).2 = log w ∧
  (metadata_write_fails E = false →
   ∀ d', d' ≠ d →
     metadata_of (load_faiss_index E d w).2 !! d' = metadata_of w !! d') ∧
  (index_files w !! d = None → load_faiss_index E d w = (Ok None, w)).
Proof.
  split; [|split; [|split; [|split]]]; try apply load_faiss_index_miss.
  all: try intros Hwr.
  all: unfold load_faiss_index, index_path_exists, datetime_now, FAISS_load_local;
    unfold_M; simpl; destruct (bool_decide _); simpl; try done.
  all: pose proof (load_metadata_world E w) as Hw;
    destruct (load_metadata E w) as [[md|e] w1] eqn:Hload; simpl in Hw; subst w1;
      simpl; try done.
  all: try apply load_metadata_ok in Hload as [-> _].
  all: destruct (save_metadata E _ w) as [[[]|e] w3] eqn:Hsave; simpl;
    [apply save_metadata_ok in Hsave as [_ ->]
    |apply save_metadata_raise in Hsave as ->; try done].
  all: simpl; destruct (index_files w !! d) as [b|]; simpl;
    try destruct (load_local E b); simpl; try done.
  all: intros d' Hne; unfold metadata_of at 1; simpl; by rewrite lookup_insert_ne.
Qed.

(** X10: an index that was saved is the index that is loaded later: after a
    [save_faiss_index] that returns, a [load_faiss_index] at any later time
    [now], when the metadata file can be read and written, hands what
    [FAISS.load_local] makes of the blob written by [save_local], and changes
    only the last access of the document, to the time of the load. *)
Theorem save_then_load_faiss_index (E' : @environment vectorstore blob)
    w w' (v : vectorstore) (d : string) (now : Z) :
  save_faiss_index E v d w = (Ok (), w') →
  metadata_read_fails E' = false →
  metadata_write_fails E' = false →
  ∃ b, save_local E v = Ok b ∧
       load_faiss_index E' d (at_time now w') =
         (match load_local E' b with Ok v' => Ok (Some v') | Raise e => Raise e end,
          World (documents w') (index_dir w') (index_files w')
            (Some (<[d := Info now]> (metadata_of w'))) now (log w')).
Proof.
  intros Hsave Hrd Hwr.
  apply save_faiss_index_ok_world in Hsave as (b & Hb & _ & ->).
  exists b. split; [done|].
  rewrite (load_faiss_index_run E' d b); [done|apply lookup_insert_eq|done..].
Qed.

(** X12: the first question about a stored document builds the index from
    the chunks of its content, saves it under the document's identifier and
    records the access, before the chain is asked; the state is this one
    whether the chain answers or raises. *)
Theorem generate_answer_builds_index w (q d : string) doc v b :
  documents w !! d = Some doc →
  index_files w !! d = None →
  from_documents E
    (map (λ chunk, {| page_content := chunk; metadata_document_id := id doc |})
       (Chunker.chunk_sentences (sentences_of E (content doc)))) = Ok v →
  save_local E v = Ok b →
  metadata_read_fails E = false → metadata_write_fails E = false →
  generate_answer_by_id E q d w =
    (rag_chain_invoke E v q,
     World (documents w) true (<[d := b]> (index_files w))
       (Some (<[d := Info (clock w)]> (metadata_of w))) (clock w) (log w)).
Proof.
  intros Hdoc Hidx Hbuild Hb Hrd Hwr.
  unfold generate_answer_by_id. unfold_M. rewrite Hdoc.
  rewrite load_faiss_index_miss by done. rewrite Hbuild.
  unfold save_faiss_index, mkdir_index_dir, vectorstore_save_local, datetime_now.
  unfold_M. simpl. rewrite Hb. simpl.
  rewrite load_metadata_run by done. simpl.
  rewrite save_metadata_run by done. simpl.
  by destruct (rag_chain_invoke E v q).
Qed.

(** X13: an index that exists is used as it is: the answer is the chain's
    answer over the loaded index, whatever the document's content is now, and
    only the last access of the document changes. *)
Theorem generate_answer_uses_existing_index w (q d : string) doc b v :
  documents w !! d = Some doc →
  index_files w !! d = Some b →
  load_local E b = Ok v →
  index_dir w = true →
  metadata_read_fails E = false → metadata_write_fails E = false →
  generate_answer_by_id E q d w =
    (rag_chain_invoke E v q,
     World (documents w) true (index_files w)
       (Some (<[d := Info (clock w)]> (metadata_of w))) (clock w) (log w)).
Proof.
  intros Hdoc Hidx Hload Hdir Hrd Hwr.
  unfold generate_answer_by_id. unfold_M. rewrite Hdoc.
  rewrite (load_faiss_index_run E d b) by done. rewrite Hload. simpl.
  by destruct (rag_chain_invoke E v q).
Qed.

(** X14: when the index cannot be built, nothing is saved: the error of
    [FAISS.from_documents] is raised and the state is as before. *)
Theorem generate_answer_build_failure w (q d : string) doc e :
  documents w !! d = Some doc →
  index_files w !! d = None →
  from_documents E
    (map (λ chunk, {| page_content := chunk; metadata_document_id := id doc |})
       (Chunker.chunk_sentences (sentences_of E (content doc)))) = Raise e →
  generate_answer_by_id E q d w = (Raise e, w).
Proof.
  intros Hdoc Hidx Hbuild.
  unfold generate_answer_by_id. unfold_M. rewrite Hdoc.
  rewrite load_faiss_index_miss by done. by rewrite Hbuild.
Qed.

(** X15: an answer operation that returns keeps the metadata entries and the
    index files in step. *)
Theorem generate_answer_consistent w w' (q d a : string) :
  consistent w →
  generate_answer_by_id E q d w = (Ok a, w') →
  consistent w'.
Proof.
  intros Hc. unfold generate_answer_by_id. unfold_M.
  destruct (documents w !! d) as [doc|]; [|by intros [= _ <-]].
  destruct (load_faiss_index E d w) as [[[v|]|e] w1] eqn:Hload; [| |done].
  - apply load_faiss_index_consistent in Hload; [|done].
    destruct (rag_chain_invoke E v q); [by intros [= _ <-] | done].
  - apply load_faiss_index_consistent in Hload; [|done].
    destruct (from_documents E _) as [v|e]; [|done]. simpl.
    destruct (save_faiss_index E v d w1) as [[[]|e] w2] eqn:Hsave; [|done].
    apply save_faiss_index_consistent in Hsave; [|done].
    destruct (rag_chain_invoke E v q); [by intros [= _ <-] | done].
Qed.

(** X16: the two files are not written together: when [save_faiss_index]
    has written the index file of a document without metadata entry and then
    fails on the metadata file, the index file is left without an entry. *)
Theorem save_faiss_index_failure_breaks_consistency w w' (v : vectorstore) (d : string) b e :
  save_local E v = Ok b →
  metadata_of w !! d = None →
  save_faiss_index E v d w = (Raise e, w') →
  index_files w' !! d = Some b ∧ metadata_of w' !! d = None ∧ ¬ consistent w'.
Proof.
  intros Hb Hnone.
  unfold save_faiss_index, mkdir_index_dir, vectorstore_save_local, datetime_now.
  unfold_M. simpl. rewrite Hb. simpl.
  match goal with |- context [load_metadata E ?w0] =>
    pose proof (load_metadata_world E w0) as Hw;
    destruct (load_metadata E w0) as [[md|e0] w1] eqn:Hload end;
    simpl in Hw; subst w1; simpl.
  - destruct (save_metadata E _ _) as [[[]|e0] w2] eqn:Hsave; [done|].
    apply save_metadata_raise in Hsave as ->. intros [= _ <-]. simpl.
    assert (Hf : ∀ m : gmap string blob, <[d:=b]> m !! d = Some b)
      by (intros; apply lookup_insert_eq).
    repeat split; [apply Hf | done |].
    intros Hc. specialize (Hc d). unfold metadata_of in Hc, Hnone. simpl in Hc.
    rewrite Hnone, Hf in Hc. destruct Hc as [_ Hc]. by destruct Hc.
  - intros [= _ <-]. simpl.
    assert (Hf : ∀ m : gmap string blob, <[d:=b]> m !! d = Some b)
      by (intros; apply lookup_insert_eq).
    repeat split; [apply Hf | done |].
    intros Hc. specialize (Hc d). unfold metadata_of in Hc, Hnone. simpl in Hc.
    rewrite Hnone, Hf in Hc. destruct Hc as [_ Hc]. by destruct Hc.
Qed.

End ServiceExtras.

Section SweepExtras.

Context {vectorstore blob : Type}.
Variable E : @environment vectorstore blob.
Implicit Types (w : @world blob) (md : gmap string info).

Lemma clean_old_indexes_ok_write w r w' :
  clean_old_indexes E w = (Ok r, w') → metadata_write_fails E = false.
Proof.
  unfold clean_old_indexes, datetime_now. unfold_M. simpl.
  destruct (load_metadata E w) as [[md|e] w1]; [|done].
  destruct (clean_loop E _ _ _ w1) as [[upd|e] w2]; [|done].
  destruct (save_metadata E upd w2) as [[[]|e] w3] eqn:Hsave; [|done].
  intros _. by apply save_metadata_ok_write in Hsave.
Qed.

(** X17: a second sweep at the same time finds nothing to do: it returns
    the same map and leaves the state of the first sweep. *)
Theorem sweep_twice w r w' :
  clean_old_indexes E w = (Ok r, w') →
  metadata_read_fails E = false →
  clean_old_indexes E w' = (Ok r, w').
Proof.
  intros Hrun Hrd.
  pose proof (clean_old_indexes_ok_write _ _ _ Hrun) as Hwr.
  apply clean_old_indexes_ok in Hrun as (Hr & Hfile & _ & _ & Hdir & Hclock & _).
  assert (Hfresh : ∀ k i, r !! k = Some i → stale E (clock w') i = false).
  { intros k i Hk. rewrite Hr, retained_lookup in Hk. rewrite Hclock.
    destruct (metadata_of w !! k) as [i'|]; [|done].
    destruct (stale E (clock w) i') eqn:Hst; [done|]. by simplify_eq. }
  unfold clean_old_indexes, datetime_now. unfold_M. simpl.
  rewrite load_metadata_run by done. simpl.
  assert (metadata_of w' = r) as -> by (unfold metadata_of; by rewrite Hfile).
  destruct (clean_loop_none_stale E (clock w') (map_to_list r) ∅ w') as [r2 Hloop].
  { apply Forall_forall. intros [k i] Hin. apply elem_of_map_to_list in Hin. eauto. }
  rewrite Hloop. simpl.
  apply clean_loop_ok in Hloop as [Hr2 _]; [|apply NoDup_fst_map_to_list].
  rewrite list_to_map_to_list in Hr2.
  assert (r2 = r) as ->.
  { apply map_eq. intros k. rewrite Hr2.
    destruct (r !! k) as [i|] eqn:Hk; [|apply lookup_empty].
    by rewrite (Hfresh k i Hk). }
  rewrite save_metadata_run by done. simpl.
  destruct w'. simpl in *. by subst.
Qed.

(** X18: a sweep only removes: the map it returns is part of the metadata,
    the index files it leaves are part of the index files, and an index file
    without metadata entry is never touched. *)
Theorem sweep_only_removes w r w' :
  clean_old_indexes E w = (Ok r, w') →
  r ⊆ metadata_of w ∧
  index_files w' ⊆ index_files w ∧
  (∀ d, metadata_of w !! d = None → index_files w' !! d = index_files w !! d).
Proof.
  intros Hrun. apply clean_old_indexes_ok in Hrun as (-> & _ & Hidx & _).
  split; [apply map_filter_subseteq|]. split.
  - apply map_subseteq_spec. intros d b. rewrite Hidx.
    destruct (metadata_of w !! d) as [i|]; [|done].
    by destruct (stale E (clock w) i).
  - intros d Hd. by rewrite Hidx, Hd.
Qed.

(** X19: when a sweep raises the error of [os.remove] for a document, that
    document had a stale entry, its index file is still there, and the
    metadata file has not been written. *)
Theorem sweep_remove_error w w' (d : string) :
  clean_old_indexes E w = (Raise (OSError d), w') →
  remove_fails E d = true ∧
  (∃ i, metadata_of w !! d = Some i ∧ stale E (clock w) i = true) ∧
  is_Some (index_files w' !! d) ∧
  metadata_file w' = metadata_file w.
Proof.
  unfold clean_old_indexes, datetime_now. unfold_M. simpl.
  destruct (load_metadata E w) as [[md|e] w1] eqn:Hload.
  - apply load_metadata_ok in Hload as [-> ->].
    pose proof (clean_loop_frame E (clock w) (map_to_list (metadata_of w)) ∅ w) as Hfr.
    destruct (clean_loop E _ _ _ w) as [[upd|e] w2] eqn:Hloop; simpl in Hfr.
    + unfold save_metadata. destruct (index_dir w2); simpl; [|done].
      by destruct (metadata_write_fails E).
    + intros [= -> <-].
      apply clean_loop_raise in Hloop as (d' & i & [= <-] & Hin & Hst & Hrm & Hfile).
      apply elem_of_map_to_list in Hin. destruct Hfr as (_ & _ & Hm & _).
      eauto 10.
  - unfold load_metadata in Hload.
    destruct (metadata_file w); [destruct (metadata_read_fails E)|];
      simplify_eq; done.
Qed.

(** X20: an index saved at most the threshold ago survives the sweep: its
    entry is in the returned map, with the time of the save, and its index
    file is still there. *)
Theorem sweep_keeps_recently_saved w w1 w2 (v : vectorstore) (d : string) now r :
  save_faiss_index E v d w = (Ok (), w1) →
  (now - clock w ≤ timedelta_hours (INACTIVITY_THRESHOLD_HOURS E))%Z →
  clean_old_indexes E (at_time now w1) = (Ok r, w2) →
  r !! d = Some (Info (clock w)) ∧ is_Some (index_files w2 !! d).
Proof.
  intros Hsave Hage Hrun.
  apply save_faiss_index_ok_world in Hsave as (b & _ & _ & ->).
  apply clean_old_indexes_ok in Hrun as (-> & _ & Hidx & _).
  unfold at_time, metadata_of in *. simpl in *.
  assert (stale E now (Info (clock w)) = false) as Hst
    by (unfold stale; simpl; apply Z.ltb_ge; lia).
  split.
  - by rewrite retained_lookup, lookup_insert_eq, Hst.
  - rewrite Hidx, lookup_insert_eq, Hst, lookup_insert_eq. eauto.
Qed.

(** X21: after a sweep that returns, [cleanup_job] adds one INFO record to
    the log and changes nothing else; the record lists, each once, the
    identifiers of the metadata entries that were not stale. The order in
    which they are listed is left open. *)
Theorem cleanup_job_logs_remaining w r w' :
  clean_old_indexes E w = (Ok r, w') →
  ∃ remaining,
    cleanup_job E w =
      (Ok (),
       World (documents w') (index_dir w') (index_files w') (metadata_file w')
         (clock w')
         (log w ++ [{| log_level := INFO;
                       log_text := "FAISS index cleanup done. Remaining indexes: ";
                       log_args := remaining |}])) ∧
    NoDup remaining ∧
    (∀ d, d ∈ remaining ↔
          ∃ i, metadata_of w !! d = Some i ∧ stale E (clock w) i = false).
Proof.
  intros Hrun. exists (map_to_list r).*1. split; [|split].
  - unfold cleanup_job, logger. unfold_M. rewrite Hrun.
    apply clean_old_indexes_ok in Hrun as (_ & _ & _ & _ & _ & _ & ->). done.
  - apply NoDup_fst_map_to_list.
  - apply clean_old_indexes_ok in Hrun as (-> & _).
    intros d. rewrite list_elem_of_fmap. split.
    + intros ([k i] & -> & Hin). apply elem_of_map_to_list in Hin. simpl.
      rewrite retained_lookup in Hin.
      destruct (metadata_of w !! k) as [i'|]; [|done].
      destruct (stale E (clock w) i') eqn:Hst; [done|]. simplify_eq. eauto.
    + intros (i & Hd & Hst). exists (d, i). split; [done|].
      apply elem_of_map_to_list. by rewrite retained_lookup, Hd, Hst.
Qed.

(** X22: before any index was saved (no index directory, no metadata file)
    the sweep raises [FileNotFoundError]: it reads the empty map, removes
    nothing and cannot open the metadata file for writing. *)
Theorem sweep_on_fresh_installation w :
  index_dir w = false →
  metadata_file w = None →
  clean_old_indexes E w = (Raise FileNotFoundError, w).
Proof.
  intros Hdir Hfile.
  unfold clean_old_indexes, datetime_now, load_metadata. unfold_M. simpl.
  rewrite Hfile. simpl. rewrite map_to_list_empty. simpl.
  unfold save_metadata. by rewrite Hdir.
Qed.

(** X23: when the index directory exists, the threshold is one
    [timedelta] can hold and no operation of the operating system fails, the
    sweep returns, and what it returns is the map of the entries that are
    not stale. *)
Theorem sweep_returns_without_failures w :
  index_dir w = true →
  timedelta_hours_defined (INACTIVITY_THRESHOLD_HOURS E) →
  metadata_read_fails E = false →
  metadata_write_fails E = false →
  (∀ d, remove_fails E d = false) →
  ∃ w', clean_old_indexes E w = (Ok (retained E (clock w) (metadata_of w)), w').
Proof.
  intros Hdir _ Hrd Hwr Hrm.
  destruct (clean_old_indexes_returns E w Hdir Hrd Hwr Hrm) as (r & w' & Hrun).
  exists w'. rewrite Hrun.
  by apply clean_old_indexes_ok in Hrun as (-> & _).
Qed.

End SweepExtras.


(** * The further properties on concrete scenarios *)

Section MoreWitnesses.

Import Scenario MoreScenarios.

Lemma ask_question_unknown_document_witness :
  question ghost_request ≠ "" ∧ document_id ghost_request ≠ "" ∧
  documents two_indexes !! document_id ghost_request = None ∧
  ask_question quiet ghost_request two_indexes =
    (Ok {| response_status := 200;
           response_result := "No document found with id " +:+ document_id ghost_request |},
     two_indexes).
Proof.
  split; [discriminate|]. split; [discriminate|]. split; [vm_compute; reflexivity|].
  apply (ask_question_unknown_document quiet two_indexes ghost_request).
  - discriminate.
  - discriminate.
  - vm_compute; reflexivity.
Defined.

Lemma load_faiss_index_frame_witness :
  metadata_write_fails quiet = false ∧
  index_files (load_faiss_index quiet "d1" two_indexes).2 = index_files two_indexes ∧
  documents (load_faiss_index quiet "d1" two_indexes).2 = documents two_indexes ∧
  log (load_faiss_index quiet "d1" two_indexes).2 = log two_indexes ∧
  metadata_of (load_faiss_index quiet "d1" two_indexes).2 !! "d2"
    = metadata_of two_indexes !! "d2" ∧
  load_faiss_index quiet "d3" two_indexes = (Ok None, two_indexes).
Proof.
  split; [reflexivity|].
  destruct (load_faiss_index_frame quiet two_indexes "d1") as (Hi & Hd & Hl & Hm & _).
  destruct (load_faiss_index_frame quiet two_indexes "d3") as (_ & _ & _ & _ & Hn).
  split; [exact Hi|]. split; [exact Hd|]. split; [exact Hl|]. split.
  - apply Hm; [reflexivity | discriminate].
  - apply Hn. vm_compute; reflexivity.
Defined.

Lemma save_then_load_faiss_index_witness :
  save_faiss_index quiet [] "d3" two_indexes = (Ok (), two_indexes_saved) ∧
  ∃ b, save_local quiet [] = Ok b ∧
       load_faiss_index quiet "d3" (at_time (4 * hour + 1) two_indexes_saved) =
         (match load_local quiet b with Ok v' => Ok (Some v') | Raise e => Raise e end,
          World (documents two_indexes_saved) (index_dir two_indexes_saved)
            (index_files two_indexes_saved)
            (Some (<["d3" := Info (4 * hour + 1)]> (metadata_of two_indexes_saved)))
            (4 * hour + 1) (log two_indexes_saved)).
Proof.
  split; [vm_compute; reflexivity|].
  apply (save_then_load_faiss_index quiet quiet two_indexes two_indexes_saved [] "d3").
  - vm_compute; reflexivity.
  - reflexivity.
  - reflexivity.
Defined.

Lemma generate_answer_builds_index_witness :
  documents with_document !! "doc-1" = Some hello_doc ∧
  index_files with_document !! "doc-1" = None ∧
  generate_answer_by_id quiet "What is this about?" "doc-1" with_document =
    (Ok "What is this about?", with_document_indexed).
Proof.
  split; [vm_compute; reflexivity|]. split; [vm_compute; reflexivity|].
  rewrite (generate_answer_builds_index quiet with_document "What is this about?"
             "doc-1" hello_doc [hello_chunk] (Some [hello_chunk]));
    vm_compute; reflexivity.
Defined.

Lemma generate_answer_uses_existing_index_witness :
  documents with_old_index !! "doc-1" = Some edited_doc ∧
  index_files with_old_index !! "doc-1" = Some (Some [hello_chunk]) ∧
  generate_answer_by_id quiet "What is this about?" "doc-1" with_old_index =
    (Ok "What is this about?", with_old_index_used).
Proof.
  split; [vm_compute; reflexivity|]. split; [vm_compute; reflexivity|].
  rewrite (generate_answer_uses_existing_index quiet with_old_index
             "What is this about?" "doc-1" edited_doc (Some [hello_chunk]) [hello_chunk]);
    vm_compute; reflexivity.
Defined.

Lemma generate_answer_build_failure_witness :
  documents with_document !! "doc-1" = Some hello_doc ∧
  index_files with_document !! "doc-1" = None ∧
  generate_answer_by_id no_embeddings "What is this about?" "doc-1" with_document =
    (Raise UpstreamModelError, with_document).
Proof.
  split; [vm_compute; reflexivity|]. split; [vm_compute; reflexivity|].
  apply (generate_answer_build_failure no_embeddings with_document
           "What is this about?" "doc-1" hello_doc UpstreamModelError);
    vm_compute; reflexivity.
Defined.

Lemma generate_answer_consistent_witness :
  consistent with_document ∧
  generate_answer_by_id quiet "What is this about?" "doc-1" with_document =
    (Ok "What is this about?", with_document_indexed) ∧
  consistent with_document_indexed.
Proof.
  assert (consistent with_document) as Hc
    by (apply consistent_of_dom; vm_compute; reflexivity).
  assert (generate_answer_by_id quiet "What is this about?" "doc-1" with_document =
            (Ok "What is this about?", with_document_indexed)) as Hrun
    by (vm_compute; reflexivity).
  split; [exact Hc|]. split; [exact Hrun|].
  exact (generate_answer_consistent quiet with_document with_document_indexed
           "What is this about?" "doc-1" "What is this about?" Hc Hrun).
Defined.

Lemma save_faiss_index_failure_breaks_consistency_witness :
  save_local unreadable [] = Ok (Some []) ∧
  metadata_of two_indexes !! "d3" = None ∧
  save_faiss_index unreadable [] "d3" two_indexes = (Raise MetadataReadError, two_indexes_torn) ∧
  index_files two_indexes_torn !! "d3" = Some (Some []) ∧
  metadata_of two_indexes_torn !! "d3" = None ∧
  ¬ consistent two_indexes_torn.
Proof.
  split; [reflexivity|]. split; [vm_compute; reflexivity|].
  split; [vm_compute; reflexivity|].
  apply (save_faiss_index_failure_breaks_consistency unreadable two_indexes
           two_indexes_torn [] "d3" (Some []) MetadataReadError);
    vm_compute; reflexivity.
Defined.

Lemma sweep_twice_witness :
  clean_old_indexes quiet two_indexes = (Ok two_indexes_kept, two_indexes_swept) ∧
  metadata_read_fails quiet = false ∧
  clean_old_indexes quiet two_indexes_swept = (Ok two_indexes_kept, two_indexes_swept).
Proof.
  split; [vm_compute; reflexivity|]. split; [reflexivity|].
  apply (sweep_twice quiet two_indexes).
  - vm_compute; reflexivity.
  - reflexivity.
Defined.

Lemma sweep_only_removes_witness :
  clean_old_indexes quiet two_indexes = (Ok two_indexes_kept, two_indexes_swept) ∧
  two_indexes_kept ⊆ metadata_of two_indexes ∧
  index_files two_indexes_swept ⊆ index_files two_indexes ∧
  (∀ d, metadata_of two_indexes !! d = None →
        index_files two_indexes_swept !! d = index_files two_indexes !! d).
Proof.
  split; [vm_compute; reflexivity|].
  apply (sweep_only_removes quiet two_indexes).
  vm_compute; reflexivity.
Defined.

Lemma sweep_remove_error_witness :
  clean_old_indexes read_only two_indexes = (Raise (OSError "d1"), two_indexes) ∧
  remove_fails read_only "d1" = true ∧
  (∃ i, metadata_of two_indexes !! "d1" = Some i ∧
        stale read_only (clock two_indexes) i = true) ∧
  is_Some (index_files two_indexes !! "d1") ∧
  metadata_file two_indexes = metadata_file two_indexes.
Proof.
  split; [vm_compute; reflexivity|].
  apply (sweep_remove_error read_only two_indexes two_indexes "d1").
  vm_compute; reflexivity.
Defined.

Lemma sweep_keeps_recently_saved_witness :
  save_faiss_index quiet [] "d3" two_indexes = (Ok (), two_indexes_saved) ∧
  (3 * hour - clock two_indexes ≤ timedelta_hours (INACTIVITY_THRESHOLD_HOURS quiet))%Z ∧
  clean_old_indexes quiet (at_time (3 * hour) two_indexes_saved)
    = (Ok (<["d3" := Info (2 * hour)]> ∅), two_indexes_saved_swept) ∧
  (<["d3" := Info (2 * hour)]> ∅ : gmap string info) !! "d3"
    = Some (Info (clock two_indexes)) ∧
  is_Some (index_files two_indexes_saved_swept !! "d3").
Proof.
  split; [vm_compute; reflexivity|]. split; [vm_compute; discriminate|].
  split; [vm_compute; reflexivity|].
  apply (sweep_keeps_recently_saved quiet two_indexes two_indexes_saved
           two_indexes_saved_swept [] "d3" (3 * hour)).
  - vm_compute; reflexivity.
  - vm_compute; discriminate.
  - vm_compute; reflexivity.
Defined.

Lemma cleanup_job_logs_remaining_witness :
  clean_old_indexes quiet two_indexes = (Ok two_indexes_kept, two_indexes_swept) ∧
  ∃ remaining,
    cleanup_job quiet two_indexes =
      (Ok (),
       World (documents two_indexes_swept) (index_dir two_indexes_swept)
         (index_files two_indexes_swept) (metadata_file two_indexes_swept)
         (clock two_indexes_swept)
         (log two_indexes ++
            [{| log_level := INFO;
                log_text := "FAISS index cleanup done. Remaining indexes: ";
                log_args := remaining |}])) ∧
    NoDup remaining ∧
    (∀ d, d ∈ remaining ↔
          ∃ i, metadata_of two_indexes !! d = Some i ∧
               stale quiet (clock two_indexes) i = false).
Proof.
  split; [vm_compute; reflexivity|].
  apply (cleanup_job_logs_remaining quiet two_indexes two_indexes_kept two_indexes_swept).
  vm_compute; reflexivity.
Defined.

Lemma sweep_on_fresh_installation_witness :
  index_dir fresh = false ∧ metadata_file fresh = None ∧
  clean_old_indexes quiet fresh = (Raise FileNotFoundError, fresh).
Proof.
  split; [reflexivity|]. split; [reflexivity|].
  apply (sweep_on_fresh_installation quiet fresh); reflexivity.
Defined.

Lemma sweep_returns_without_failures_witness :
  index_dir two_indexes = true ∧
  timedelta_hours_defined (INACTIVITY_THRESHOLD_HOURS quiet) ∧
  ∃ w', clean_old_indexes quiet two_indexes =
          (Ok (retained quiet (clock two_indexes) (metadata_of two_indexes)), w').
Proof.
  split; [reflexivity|].
  assert (timedelta_hours_defined (INACTIVITY_THRESHOLD_HOURS quiet)) as Hh.
  { unfold timedelta_hours_defined. simpl. lia. }
  split; [exact Hh|].
  apply (sweep_returns_without_failures quiet two_indexes); try reflexivity.
  exact Hh.
Defined.

End MoreWitnesses.
